(** * PKI backend: CA configuration and issuer configuration handlers

    A shallow embedding of [builtin/logical/pki/path_config_ca.go]:
    the handlers [pathCAWrite], [pathCAIssuersRead] and [pathCAIssuersWrite],
    run against an in-memory storage whose operations can fail, and against
    the collaborators the handlers call (PEM parsing, bundle conversion,
    JSON encoding, the CRL builder, the issuer population). *)

From Stdlib Require Import String Ascii List Bool Arith Lia.
From stdpp Require Import base option list strings gmap fin_maps.
Import ListNotations.

Local Open Scope string_scope.
Local Open Scope list_scope.

(** ** Go values *)

(** [[]byte] *)
Abbreviation bytes := (list Byte.byte).

(** Modelled from the spec: the error types are declared in
    [sdk/helper/errutil], which is not among the sources at hand.  Go's
    [error] values, by dynamic type: [InternalError], [UserError] and
    [NotFoundError] are the three kinds of the specification's taxonomy
    (section 7); [errorString] is what [errors.New] builds; [wrapError] is
    what [fmt.Errorf] builds for a format with the verb %w (it keeps the
    formatted message and the wrapped error). *)
Inductive error : Type :=
| InternalError (Err : string)
| UserError (Err : string)
| NotFoundError (Err : string)
| errorString (s : string)
| wrapError (msg : string) (err : error).

(** The method [Error()] *)
Definition Error (e : error) : string :=
  match e with
  | InternalError s | UserError s | NotFoundError s | errorString s => s
  | wrapError msg _ => msg
  end.

(** [fmt.Errorf(prefix + "%w", err)] *)
Definition Errorf_w (prefix : string) (err : error) : error :=
  wrapError (prefix ++ Error err) err.

(** The type switch [switch err.(type) { case errutil.InternalError: ... }]
    looks at the dynamic type of the value itself, not through wrappers. *)
Definition isInternalError (e : error) : bool :=
  match e with InternalError _ => true | _ => false end.

(** A Go result pair [(T, error)] of a call that follows the convention
    "value when the error is nil". *)
Inductive result (A : Type) : Type :=
| Ok (a : A)
| Err (e : error).
Arguments Ok {A} a.
Arguments Err {A} e.

(** ** logical.Response *)

(** Modelled from the spec: [logical.Response] is declared in [sdk/logical].
    A response is its body, [Data map[string]interface{}]; every value these
    handlers store in it is a string. *)
Record Response : Type := mkResponse { Data : gmap string string }.

(** Modelled from the spec: [logical.ErrorResponse(text)] is defined in
    [sdk/logical]; it builds the structured, non-fatal error payload, a body
    with the message under the key error. *)
Definition ErrorResponse (text : string) : Response :=
  {| Data := {[ "error" := text ]} |}.

(** What a handler gives back: a [logical.Response] pointer and an [error]. *)
Record Reply : Type := mkReply { resp : option Response; err : option error }.

Definition respond (r : Response) : Reply := {| resp := Some r; err := None |}.
Definition fail (e : error) : Reply := {| resp := None; err := Some e |}.
Definition finish (e : option error) : Reply := {| resp := None; err := e |}.

(** ** logical.Storage *)

Record StorageEntry : Type := mkEntry { Key : string; Value : bytes }.

(** Modelled from the spec: [logical.Storage] is an interface of
    [sdk/logical]; section 6 gives its contract, Put(key, value) with an
    optional error and Get(key) with the bytes or absent and an optional
    error, over a flat key-value store.  [faults] is the schedule of outcomes
    of the storage operations still to come: each [Put] or [Get] takes the
    head ([None]: the operation works, [Some e]: it fails with [e]); when the
    schedule is used up every operation works.  A failing [Put] stores
    nothing. *)
Record Storage : Type := mkStorage {
  kv : gmap string bytes;
  faults : list (option error)
}.

Definition take_fault (s : Storage) : option error * Storage :=
  match faults s with
  | [] => (None, s)
  | f :: fs => (f, {| kv := kv s; faults := fs |})
  end.

(** What a handler run does, in order, with the outcome of each call. *)
Inductive Event : Type :=
| EvPut (key : string) (value : bytes) (res : option error)
| EvGet (key : string) (res : option error)
| EvListIssuers
| EvResolve (reference : string)
| EvBuildCRL (forceNew : bool) (res : option error).

(** ** The monad of handler code: storage threaded through, calls logged *)

Definition M (A : Type) : Type := Storage -> A * Storage * list Event.

Definition ret {A} (a : A) : M A := fun s => (a, s, []).

Definition bind {A B} (m : M A) (f : A -> M B) : M B := fun s =>
  let '(a, s1, t1) := m s in
  let '(b, s2, t2) := f a s1 in
  (b, s2, t1 ++ t2).

Definition emit (e : Event) : M unit := fun s => (tt, s, [e]).

Declare Scope handler_scope.
Delimit Scope handler_scope with handler.
Notation "x <- c1 ;; c2" := (bind c1 (fun x => c2))
  (at level 100, c1 at next level, right associativity) : handler_scope.
Notation "c1 ;;; c2" := (bind c1 (fun _ => c2))
  (at level 100, right associativity) : handler_scope.
Local Open Scope handler_scope.

(** Projections of a run *)
Definition reply_of {A} (r : A * Storage * list Event) : A := fst (fst r).
Definition final_of {A} (r : A * Storage * list Event) : Storage := snd (fst r).
Definition events_of {A} (r : A * Storage * list Event) : list Event := snd r.

(** [req.Storage.Put(ctx, entry)]: the store copies the key and the value of
    the entry it is handed, so the caller may reuse the entry afterwards. *)
Definition Put (entry : StorageEntry) : M (option error) := fun s =>
  let '(f, s1) := take_fault s in
  match f with
  | Some e => (Some e, s1, [EvPut (Key entry) (Value entry) (Some e)])
  | None =>
      (None,
       {| kv := <[ Key entry := Value entry ]> (kv s1); faults := faults s1 |},
       [EvPut (Key entry) (Value entry) None])
  end.

(** [req.Storage.Get(ctx, key)]: a nil entry when the key is absent. *)
Definition Get (key : string) : M (result (option StorageEntry)) := fun s =>
  let '(f, s1) := take_fault s in
  match f with
  | Some e => (Err e, s1, [EvGet key (Some e)])
  | None =>
      (Ok (mkEntry key <$> kv s1 !! key), s1, [EvGet key None])
  end.

(** ** certutil *)

Inductive KeyType : Type :=
| UnknownPrivateKey
| RSAPrivateKey
| ECPrivateKey
| Ed25519PrivateKey.

(** The fields of [x509.Certificate] the handler looks at. *)
Record x509Certificate : Type := mkCertificate { Raw : bytes; IsCA : bool }.

(** [certutil.ParsedCertBundle]; [PrivateKey] and [Certificate] are pointers
    or interfaces that may be nil. *)
Record ParsedCertBundle : Type := mkParsed {
  PrivateKeyType : KeyType;
  PrivateKeyBytes : bytes;
  PrivateKey : option bytes;
  CertificateBytes : bytes;
  Certificate : option x509Certificate
}.

(** ** Issuers *)

Abbreviation issuerId := string (only parsing).

Record issuerConfig : Type := mkIssuerConfig { DefaultIssuerId : issuerId }.

Record issuer : Type := mkIssuer { ID : issuerId; Name : string }.

(** ** The collaborators of the handlers

    Everything the handlers call that is defined outside
    [path_config_ca.go] and that the specification treats as an external
    collaborator (sections 4.4 and 6): the certificate library, JSON
    encoding, the CRL builder and the issuer population.  They are the
    fields of the backend, so that every property below holds whatever they
    compute.  [CertBundle] is the storage form of a bundle; the handlers
    never look inside it. *)
Record backend : Type := mkBackend {
  CertBundle : Type;
  (** [certutil.ParsePEMBundle] *)
  ParsePEMBundle : string -> result ParsedCertBundle;
  (** [ParsedCertBundle.ToCertBundle] *)
  ToCertBundle : ParsedCertBundle -> result CertBundle;
  (** the JSON encoding inside [logical.StorageEntryJSON] *)
  EncodeJSON : CertBundle -> result bytes;
  (** [StorageEntry.DecodeJSON] into a [CertBundle] *)
  DecodeJSON : bytes -> option CertBundle;
  (** [CertBundle.ToParsedCertBundle] *)
  ToParsedCertBundle : CertBundle -> result ParsedCertBundle;
  (** [buildCRL(ctx, b, req, forceNew)]: works on the request's storage *)
  buildCRL : bool -> Storage -> Storage * option error;
  (** JSON encoding of the issuers configuration *)
  encodeIssuerConfig : issuerConfig -> result bytes;
  decodeIssuerConfig : bytes -> option issuerConfig;
  (** the stored issuer population, read from the request's storage *)
  listIssuers : M (result (list issuer))
}.

(** [logical.StorageEntryJSON(key, v)] *)
Definition StorageEntryJSON (b : backend) (key : string) (cb : CertBundle b)
  : result StorageEntry :=
  match EncodeJSON b cb with
  | Ok encoded => Ok {| Key := key; Value := encoded |}
  | Err e => Err e
  end.

(** The call of the CRL builder, logged with what it returned. *)
Definition callBuildCRL (b : backend) (forceNew : bool) : M (option error) :=
  fun s =>
    let '(s', e) := buildCRL b forceNew s in
    (e, s', [EvBuildCRL forceNew e]).

(** ** [pathCAWrite] *)

Definition pathCAWrite (b : backend) (pemBundle : string) : M Reply :=
  if decide (pemBundle = "") then
    ret (respond (ErrorResponse "'pem_bundle' was empty"))
  else
  match ParsePEMBundle b pemBundle with
  | Err e =>
      if isInternalError e then ret (fail e)
      else ret (respond (ErrorResponse (Error e)))
  | Ok parsedBundle =>
  match PrivateKey parsedBundle with
  | None =>
      ret (respond (ErrorResponse "private key not found in the PEM bundle"))
  | Some _ =>
  match PrivateKeyType parsedBundle with
  | UnknownPrivateKey =>
      ret (respond (ErrorResponse "unknown private key found in the PEM bundle"))
  | _ =>
  match Certificate parsedBundle with
  | None =>
      ret (respond (ErrorResponse "no certificate found in the PEM bundle"))
  | Some cert =>
  if negb (IsCA cert) then
    ret (respond (ErrorResponse
      "the given certificate is not marked for CA use and cannot be used with this backend"))
  else
  match ToCertBundle b parsedBundle with
  | Err e =>
      ret (fail (Errorf_w "error converting raw values into cert bundle: " e))
  | Ok cb =>
  match StorageEntryJSON b "config/ca_bundle" cb with
  | Err e => ret (fail e)
  | Ok entry =>
      e1 <- Put entry ;;
      match e1 with
      | Some e => ret (fail e)
      | None =>
          (* entry.Key = "ca"; entry.Value = parsedBundle.CertificateBytes *)
          let entry := {| Key := "ca"; Value := CertificateBytes parsedBundle |} in
          e2 <- Put entry ;;
          match e2 with
          | Some e => ret (fail e)
          | None =>
              e3 <- callBuildCRL b true ;;
              ret (finish e3)
          end
      end
  end end end end end end.

(** ** The issuer registry *)

(** Modelled from the spec: [getIssuersConfig] is defined in another file of
    the package.  It returns the current issuers configuration, read from the
    key config/issuers, and the empty configuration when none was ever
    stored. *)
Definition getIssuersConfig (b : backend) : M (result issuerConfig) :=
  r <- Get "config/issuers" ;;
  match r with
  | Err e => ret (Err e)
  | Ok None => ret (Ok {| DefaultIssuerId := "" |})
  | Ok (Some entry) =>
      match decodeIssuerConfig b (Value entry) with
      | Some config => ret (Ok config)
      | None => ret (Err (InternalError "unable to decode issuer configuration"))
      end
  end.

Definition findByName (reference : string) (l : list issuer) : option issuer :=
  List.find (fun i => bool_decide (Name i = reference)) l.

Definition findById (reference : string) (l : list issuer) : option issuer :=
  List.find (fun i => bool_decide (ID i = reference)) l.

(** Modelled from the spec: [resolveIssuerReference] is defined in another
    file of the package.  The reference default gives the configured default
    issuer; any other reference is matched against the stored issuer names,
    then against the stored issuer identifiers, and is not found when neither
    matches. *)
Definition resolveIssuerReference (b : backend) (reference : string)
  : M (result issuerId) :=
  emit (EvResolve reference) ;;;
  if decide (reference = "default") then
    r <- getIssuersConfig b ;;
    match r with
    | Err e => ret (Err e)
    | Ok config => ret (Ok (DefaultIssuerId config))
    end
  else
    emit EvListIssuers ;;;
    r <- listIssuers b ;;
    match r with
    | Err e => ret (Err e)
    | Ok issuers =>
        match findByName reference issuers with
        | Some i => ret (Ok (ID i))
        | None =>
            match findById reference issuers with
            | Some i => ret (Ok (ID i))
            | None =>
                ret (Err (NotFoundError
                  ("unable to find PKI issuer for reference: " ++ reference)))
            end
        end
    end.

(** Modelled from the spec: [updateDefaultIssuerId] is defined in another
    file of the package.  It stores the identifier as the new default under
    config/issuers and does not check that such an issuer exists. *)
Definition updateDefaultIssuerId (b : backend) (id : issuerId)
  : M (option error) :=
  match encodeIssuerConfig b {| DefaultIssuerId := id |} with
  | Err e => ret (Some e)
  | Ok encoded => Put {| Key := "config/issuers"; Value := encoded |}
  end.

(** ** [pathCAIssuersRead] *)

Definition pathCAIssuersRead (b : backend) : M Reply :=
  r <- getIssuersConfig b ;;
  match r with
  | Err e =>
      ret (respond (ErrorResponse
        ("Error loading issuers configuration: " ++ Error e)))
  | Ok config =>
      ret (respond {| Data := {[ "default" := DefaultIssuerId config ]} |})
  end.

(** ** [pathCAIssuersWrite] *)

Definition pathCAIssuersWrite (b : backend) (newDefault : string) : M Reply :=
  if Nat.eqb (String.length newDefault) 0 || bool_decide (newDefault = "default") then
    ret (respond (ErrorResponse
      "Invalid issuer specification; must be non-empty and can't be 'default'."))
  else
    r <- resolveIssuerReference b newDefault ;;
    match r with
    | Err e =>
        ret (respond (ErrorResponse
          ("Error resolving issuer reference: " ++ Error e)))
    | Ok parsedIssuer =>
        e <- updateDefaultIssuerId b parsedIssuer ;;
        match e with
        | Some e =>
            ret (respond (ErrorResponse
              ("Error updating issuer configuration: " ++ Error e)))
        | None =>
            ret (respond {| Data := {[ "default" := parsedIssuer ]} |})
        end
    end.

(** ** The validation order of the specification

    This definition follows the wording of the specification (section 4.1),
    not the handler: the six checks of a CA write as a list, in the order the
    specification numbers them, each giving the failure it raises when it
    does not pass.  Checks 3 to 6 look at the parsed bundle and have nothing
    to reject when there is none.  The messages are the ones the handler
    words. *)
Inductive Failure : Type :=
| UserInputError (msg : string)
| InternalFailure (e : error).

Definition onParsed (b : backend) (pemBundle : string)
    (check : ParsedCertBundle -> option Failure) : option Failure :=
  match ParsePEMBundle b pemBundle with
  | Ok parsed => check parsed
  | Err _ => None
  end.

Definition validation_steps (b : backend) (pemBundle : string)
  : list (option Failure) :=
  [ (* 1 *) if decide (pemBundle = "")
            then Some (UserInputError "'pem_bundle' was empty") else None;
    (* 2 *) match ParsePEMBundle b pemBundle with
            | Ok _ => None
            | Err e => if isInternalError e then Some (InternalFailure e)
                       else Some (UserInputError (Error e))
            end;
    (* 3 *) onParsed b pemBundle (fun p =>
              match PrivateKey p with
              | Some _ => None
              | None =>
                  Some (UserInputError "private key not found in the PEM bundle")
              end);
    (* 4 *) onParsed b pemBundle (fun p =>
              match PrivateKeyType p with
              | UnknownPrivateKey =>
                  Some (UserInputError "unknown private key found in the PEM bundle")
              | _ => None
              end);
    (* 5 *) onParsed b pemBundle (fun p =>
              match Certificate p with
              | Some _ => None
              | None =>
                  Some (UserInputError "no certificate found in the PEM bundle")
              end);
    (* 6 *) onParsed b pemBundle (fun p =>
              match Certificate p with
              | Some c =>
                  if IsCA c then None
                  else Some (UserInputError
                    "the given certificate is not marked for CA use and cannot be used with this backend")
              | None => None
              end) ].

(** The first check of the list that does not pass. *)
Fixpoint first_failure (steps : list (option Failure)) : option Failure :=
  match steps with
  | [] => None
  | Some f :: _ => Some f
  | None :: rest => first_failure rest
  end.

(** A bundle is valid when it passes the six checks. *)
Definition valid_bundle (b : backend) (pemBundle : string) : Prop :=
  first_failure (validation_steps b pemBundle) = None.

(** ** Vocabulary of the statements *)

(** The next storage operation works. *)
Definition next_op_ok (s : Storage) : bool :=
  match faults s with
  | Some _ :: _ => false
  | _ => true
  end.

(** The next two storage operations work. *)
Definition next_two_ops_ok (s : Storage) : bool :=
  match faults s with
  | Some _ :: _ | _ :: Some _ :: _ => false
  | _ => true
  end.

(** The CRL builder leaves the entry under [key] as it finds it. *)
Definition crl_keeps (b : backend) (key : string) : Prop :=
  forall forceNew s, kv (fst (buildCRL b forceNew s)) !! key = kv s !! key.

(** How often the CRL builder was called in a run. *)
Definition isBuildCRL (e : Event) : bool :=
  match e with EvBuildCRL _ _ => true | _ => false end.

Definition crl_calls (t : list Event) : nat := length (filter isBuildCRL t).

(** The storing part of [pathCAWrite], from the conversion of the parsed
    bundle to the CRL build: what the handler does once the six checks have
    passed (see [pathCAWrite_valid]). *)
Definition storeAndRebuild (b : backend) (parsedBundle : ParsedCertBundle)
  : M Reply :=
  match ToCertBundle b parsedBundle with
  | Err e =>
      ret (fail (Errorf_w "error converting raw values into cert bundle: " e))
  | Ok cb =>
      match StorageEntryJSON b "config/ca_bundle" cb with
      | Err e => ret (fail e)
      | Ok entry =>
          e1 <- Put entry ;;
          match e1 with
          | Some e => ret (fail e)
          | None =>
              e2 <- Put {| Key := "ca"; Value := CertificateBytes parsedBundle |} ;;
              match e2 with
              | Some e => ret (fail e)
              | None => e3 <- callBuildCRL b true ;; ret (finish e3)
              end
          end
      end
  end.

(** The storage after the two writes of a CA write, before the CRL build. *)
Definition afterPuts (s : Storage) (bundle cert : bytes) : Storage :=
  {| kv := <[ "ca" := cert ]> (<[ "config/ca_bundle" := bundle ]> (kv s));
     faults := tail (tail (faults s)) |}.

(** The five ways the storing part can go. *)
Inductive store_run (b : backend) (p : ParsedCertBundle) (s : Storage)
  : Reply * Storage * list Event -> Prop :=
| run_conversion_failed (e : error) :
    ToCertBundle b p = Err e ->
    store_run b p s
      (fail (Errorf_w "error converting raw values into cert bundle: " e), s, [])
| run_encoding_failed (cb : CertBundle b) (e : error) :
    ToCertBundle b p = Ok cb ->
    EncodeJSON b cb = Err e ->
    store_run b p s (fail e, s, [])
| run_bundle_put_failed (cb : CertBundle b) (encoded : bytes) (e : error) :
    ToCertBundle b p = Ok cb ->
    EncodeJSON b cb = Ok encoded ->
    store_run b p s
      (fail e, {| kv := kv s; faults := tail (faults s) |},
       [EvPut "config/ca_bundle" encoded (Some e)])
| run_ca_put_failed (cb : CertBundle b) (encoded : bytes) (e : error) :
    ToCertBundle b p = Ok cb ->
    EncodeJSON b cb = Ok encoded ->
    store_run b p s
      (fail e,
       {| kv := <[ "config/ca_bundle" := encoded ]> (kv s);
          faults := tail (tail (faults s)) |},
       [EvPut "config/ca_bundle" encoded None;
        EvPut "ca" (CertificateBytes p) (Some e)])
| run_crl_built (cb : CertBundle b) (encoded : bytes)
    (s' : Storage) (e : option error) :
    ToCertBundle b p = Ok cb ->
    EncodeJSON b cb = Ok encoded ->
    buildCRL b true (afterPuts s encoded (CertificateBytes p)) = (s', e) ->
    store_run b p s
      (finish e, s',
       [EvPut "config/ca_bundle" encoded None;
        EvPut "ca" (CertificateBytes p) None;
        EvBuildCRL true e]).

(** ASCII case folding: two strings differ in letter case only when they
    fold to the same string. *)
Definition lowerAscii (c : ascii) : ascii :=
  let n := nat_of_ascii c in
  if (65 <=? n)%nat && (n <=? 90)%nat then ascii_of_nat (n + 32) else c.

Fixpoint lower (s : string) : string :=
  match s with
  | EmptyString => EmptyString
  | String c rest => String (lowerAscii c) (lower rest)
  end.

(** The certificate bytes recovered from a stored bundle entry. *)
Definition storedCertificate (b : backend) (stored : bytes) : option bytes :=
  match DecodeJSON b stored with
  | Some cb =>
      match ToParsedCertBundle b cb with
      | Ok p => Some (CertificateBytes p)
      | Err _ => None
      end
  | None => None
  end.

(** ** An in-memory backend for examples *)

Module Fixture.

Definition certBytes : bytes := [Byte.x30; Byte.x82; Byte.x01; Byte.x0a].
Definition keyBytes : bytes := [Byte.x30; Byte.x2e; Byte.x02].

Definition caCert : x509Certificate := {| Raw := certBytes; IsCA := true |}.
Definition leafCert : x509Certificate := {| Raw := certBytes; IsCA := false |}.

Definition caBundle : ParsedCertBundle :=
  {| PrivateKeyType := ECPrivateKey; PrivateKeyBytes := keyBytes;
     PrivateKey := Some keyBytes; CertificateBytes := certBytes;
     Certificate := Some caCert |}.

Definition leafBundle : ParsedCertBundle :=
  {| PrivateKeyType := ECPrivateKey; PrivateKeyBytes := keyBytes;
     PrivateKey := Some keyBytes; CertificateBytes := certBytes;
     Certificate := Some leafCert |}.

Definition keylessBundle : ParsedCertBundle :=
  {| PrivateKeyType := UnknownPrivateKey; PrivateKeyBytes := [];
     PrivateKey := None; CertificateBytes := certBytes;
     Certificate := Some caCert |}.

(** A parser that knows four texts. *)
Definition parse (pem : string) : result ParsedCertBundle :=
  if decide (pem = "KEY+CA-CERT") then Ok caBundle
  else if decide (pem = "KEY+LEAF-CERT") then Ok leafBundle
  else if decide (pem = "CA-CERT") then Ok keylessBundle
  else if decide (pem = "PANIC") then Err (InternalError "pem decoder failed")
  else Err (UserError "no data found in PEM block").

Definition toParsed (cb : bytes) : result ParsedCertBundle :=
  Ok {| PrivateKeyType := UnknownPrivateKey; PrivateKeyBytes := [];
        PrivateKey := None; CertificateBytes := cb; Certificate := None |}.

(** A CRL builder that stores a list under the key crl. *)
Definition crlBytes : bytes := [Byte.x30; Byte.x00].
Definition crlStore (forceNew : bool) (s : Storage) : Storage * option error :=
  ({| kv := <[ "crl" := crlBytes ]> (kv s); faults := faults s |}, None).

(** A CRL builder that fails. *)
Definition crlDown (forceNew : bool) (s : Storage) : Storage * option error :=
  (s, Some (errorString "crl build failed")).

Definition make (crl : bool -> Storage -> Storage * option error)
    (issuers : list issuer) : backend :=
  {| CertBundle := bytes;
     ParsePEMBundle := parse;
     ToCertBundle := fun p => Ok (CertificateBytes p);
     EncodeJSON := fun cb => Ok cb;
     DecodeJSON := fun stored => Some stored;
     ToParsedCertBundle := toParsed;
     buildCRL := crl;
     encodeIssuerConfig := fun c =>
       Ok (String.list_byte_of_string (DefaultIssuerId c));
     decodeIssuerConfig := fun stored =>
       Some {| DefaultIssuerId := String.string_of_list_byte stored |};
     listIssuers := ret (Ok issuers) |}.

Definition alpha : issuer := {| ID := "id-123"; Name := "alpha" |}.

Definition pki : backend := make crlStore [alpha].
Definition pkiCrlDown : backend := make crlDown [alpha].

(** A CRL builder that stores its list with a [Put] on the request's
    storage, and fails when that [Put] fails. *)
Definition crlPut (forceNew : bool) (s : Storage) : Storage * option error :=
  let '(e, s', _) := Put {| Key := "crl"; Value := crlBytes |} s in (s', e).

Definition pkiStoring : backend := make crlPut [alpha].

Definition empty : Storage := {| kv := ∅; faults := [] |}.

Definition storageDown : error := errorString "storage is sealed".

(** A store whose schedule is [fs]. *)
Definition faulty (fs : list (option error)) : Storage :=
  {| kv := ∅; faults := fs |}.

End Fixture.

(** * Properties *)

(** ** Storage and response facts *)

Lemma ErrorResponse_inj (a c : string) :
  ErrorResponse a = ErrorResponse c -> a = c.
Proof.
  intros H.
  assert (L : Data (ErrorResponse a) !! "error" = Data (ErrorResponse c) !! "error")
    by (rewrite H; reflexivity).
  unfold ErrorResponse in L; simpl in L.
  rewrite !lookup_singleton_eq in L.
  congruence.
Qed.

Lemma respond_inj (r1 r2 : Response) : respond r1 = respond r2 -> r1 = r2.
Proof.
  intros H. apply (f_equal resp) in H. simpl in H.
  exact (Some_inj _ _ H).
Qed.

Lemma default_is_not_error (id msg : string) :
  {| Data := {[ "default" := id ]} |} <> ErrorResponse msg.
Proof.
  intros H.
  assert (L : ({[ "default" := id ]} : gmap string string) !! "error"
              = Data (ErrorResponse msg) !! "error")
    by (rewrite <- H; reflexivity).
  unfold ErrorResponse in L; simpl in L.
  rewrite lookup_singleton_eq in L.
  rewrite lookup_singleton_ne in L by discriminate.
  discriminate.
Qed.

Lemma Put_works (entry : StorageEntry) (s : Storage) :
  next_op_ok s = true ->
  Put entry s =
    (None,
     {| kv := <[ Key entry := Value entry ]> (kv s); faults := tail (faults s) |},
     [EvPut (Key entry) (Value entry) None]).
Proof.
  unfold next_op_ok, Put, take_fault.
  destruct s as [m fs]; simpl.
  destruct fs as [|[e|] fs]; simpl; intros H; try discriminate; reflexivity.
Qed.

Lemma Put_cases (entry : StorageEntry) (s : Storage) :
  (exists e, Put entry s =
     (Some e, {| kv := kv s; faults := tail (faults s) |},
      [EvPut (Key entry) (Value entry) (Some e)]))
  \/ Put entry s =
     (None,
      {| kv := <[ Key entry := Value entry ]> (kv s); faults := tail (faults s) |},
      [EvPut (Key entry) (Value entry) None]).
Proof.
  unfold Put, take_fault.
  destruct s as [m fs]; simpl.
  destruct fs as [|[e|] fs]; simpl; eauto.
Qed.

Lemma Get_works (key : string) (s : Storage) :
  next_op_ok s = true ->
  Get key s =
    (Ok (mkEntry key <$> kv s !! key),
     {| kv := kv s; faults := tail (faults s) |},
     [EvGet key None]).
Proof.
  unfold next_op_ok, Get, take_fault.
  destruct s as [m fs]; simpl.
  destruct fs as [|[e|] fs]; simpl; intros H; try discriminate; reflexivity.
Qed.

Lemma emit_then_events {A} (e : Event) (k : M A) (s : Storage) :
  events_of ((emit e ;;; k) s) = e :: events_of (k s).
Proof.
  unfold bind, emit, events_of.
  destruct (k s) as [[a s1] t1]. reflexivity.
Qed.

(** ** Validation *)

Section Validation.

Variable b : backend.

(** What passing the six checks means, check by check. *)
Lemma valid_bundle_inv (pemBundle : string) :
  valid_bundle b pemBundle ->
  pemBundle <> "" /\
  exists parsed key cert,
    ParsePEMBundle b pemBundle = Ok parsed /\
    PrivateKey parsed = Some key /\
    PrivateKeyType parsed <> UnknownPrivateKey /\
    Certificate parsed = Some cert /\
    IsCA cert = true.
Proof.
  unfold valid_bundle, validation_steps, onParsed; simpl.
  destruct (decide (pemBundle = "")) as [E|N]; [discriminate|].
  destruct (ParsePEMBundle b pemBundle) as [p|e] eqn:EP.
  - destruct (PrivateKey p) as [k|] eqn:EK; [|discriminate].
    destruct (PrivateKeyType p) eqn:ET; try discriminate;
      (destruct (Certificate p) as [c|] eqn:EC; [|discriminate];
       destruct (IsCA c) eqn:ECA; [|discriminate];
       intros _; split; [assumption|];
       exists p, k, c; repeat split; auto; congruence).
  - destruct (isInternalError e); discriminate.
Qed.

(** After the six checks the handler is its storing part. *)
Lemma pathCAWrite_valid (pemBundle : string) (parsed : ParsedCertBundle) :
  valid_bundle b pemBundle ->
  ParsePEMBundle b pemBundle = Ok parsed ->
  pathCAWrite b pemBundle = storeAndRebuild b parsed.
Proof.
  intros V EP.
  destruct (valid_bundle_inv _ V) as (N & p & k & c & EP' & EK & ET & EC & ECA).
  rewrite EP in EP'; injection EP' as <-.
  unfold pathCAWrite.
  destruct (decide (pemBundle = "")) as [E|_]; [contradiction|].
  unfold storeAndRebuild.
  rewrite EP, EK, EC, ECA; simpl.
  destruct (PrivateKeyType parsed); [contradiction| | |]; reflexivity.
Qed.

(** A run that does not pass the six checks touches nothing. *)
Lemma pathCAWrite_invalid_pure (pemBundle : string) (s : Storage) (f : Failure) :
  first_failure (validation_steps b pemBundle) = Some f ->
  pathCAWrite b pemBundle s =
    (match f with
     | UserInputError msg => respond (ErrorResponse msg)
     | InternalFailure e => fail e
     end, s, []).
Proof.
  unfold validation_steps, onParsed, pathCAWrite; simpl.
  destruct (decide (pemBundle = "")) as [E|N].
  { intros [= <-]; reflexivity. }
  destruct (ParsePEMBundle b pemBundle) as [p|e].
  - destruct (PrivateKey p) as [k|]; [|intros [= <-]; reflexivity].
    destruct (PrivateKeyType p);
      try (intros [= <-]; reflexivity);
      (destruct (Certificate p) as [c|]; [|intros [= <-]; reflexivity];
       destruct (IsCA c); simpl; [discriminate|intros [= <-]; reflexivity]).
  - destruct (isInternalError e); intros [= <-]; reflexivity.
Qed.

(** C3: the CA write checks its input in the order of the specification
    (bundle not empty, PEM parse, private key present, key type known,
    certificate present, CA flag set); the first check that does not pass
    decides, its message comes back in a structured error response with no
    operation error, and the run performs no storage operation: the storage
    is the one it started from and the run logs no call. *)
Theorem pathCAWrite_first_failure_wins
    (pemBundle : string) (s : Storage) (msg : string) :
  first_failure (validation_steps b pemBundle) = Some (UserInputError msg) ->
  pathCAWrite b pemBundle s = (respond (ErrorResponse msg), s, []).
Proof.
  intros H. exact (pathCAWrite_invalid_pure _ s _ H).
Qed.

(** C5: when parsing the bundle fails, an error whose type is
    [errutil.InternalError] is returned as it is, as the operation's error
    and with no response; any other error comes back in a structured error
    response whose message is the parser's message, with no operation
    error. *)
Theorem pathCAWrite_parse_failure
    (pemBundle : string) (s : Storage) (e : error) :
  pemBundle <> "" ->
  ParsePEMBundle b pemBundle = Err e ->
  pathCAWrite b pemBundle s =
    (if isInternalError e
     then {| resp := None; err := Some e |}
     else {| resp := Some (ErrorResponse (Error e)); err := None |},
     s, []).
Proof.
  intros N EP. unfold pathCAWrite.
  destruct (decide (pemBundle = "")) as [E|_]; [contradiction|].
  rewrite EP. destruct (isInternalError e); reflexivity.
Qed.

End Validation.

(** ** Storing the CA *)

Section CAStore.

Variable b : backend.

Lemma storeAndRebuild_run (p : ParsedCertBundle) (s : Storage) :
  store_run b p s (storeAndRebuild b p s).
Proof.
  unfold storeAndRebuild, StorageEntryJSON.
  destruct (ToCertBundle b p) as [cb|e] eqn:EC;
    [|unfold ret; now apply run_conversion_failed].
  destruct (EncodeJSON b cb) as [enc|e] eqn:EE;
    [|unfold ret; now apply (run_encoding_failed b p s cb)].
  unfold bind.
  destruct (Put_cases {| Key := "config/ca_bundle"; Value := enc |} s)
    as [[e ->]| ->]; simpl.
  { eapply run_bundle_put_failed; eauto. }
  match goal with |- context [Put ?en ?st] =>
    destruct (Put_cases en st) as [[e ->]| ->] end; simpl.
  { eapply run_ca_put_failed; eauto. }
  unfold callBuildCRL.
  match goal with |- context [buildCRL b true ?st] =>
    destruct (buildCRL b true st) as [s' e3] eqn:EB end; simpl.
  eapply run_crl_built; eauto.
Qed.

(** Every run of the handler is either a run that touched nothing or a run
    of the storing part. *)
Lemma pathCAWrite_run (pemBundle : string) (s : Storage) :
  (exists r, pathCAWrite b pemBundle s = (r, s, []))
  \/ (exists p, valid_bundle b pemBundle /\ ParsePEMBundle b pemBundle = Ok p /\
                store_run b p s (pathCAWrite b pemBundle s)).
Proof.
  destruct (first_failure (validation_steps b pemBundle)) as [f|] eqn:F.
  - left. eexists. exact (pathCAWrite_invalid_pure b _ s _ F).
  - right. destruct (valid_bundle_inv b _ F) as (_ & p & _ & _ & EP & _).
    exists p. split; [exact F|]. split; [exact EP|].
    rewrite (pathCAWrite_valid b _ _ F EP). apply storeAndRebuild_run.
Qed.

End CAStore.

(** ** The CA write *)

Section CAWrite.

Variable b : backend.

Lemma afterPuts_bundle (s : Storage) (bundle cert : bytes) :
  kv (afterPuts s bundle cert) !! "config/ca_bundle" = Some bundle.
Proof.
  unfold afterPuts; simpl.
  rewrite lookup_insert_ne by discriminate.
  apply lookup_insert_eq.
Qed.

Lemma afterPuts_ca (s : Storage) (bundle cert : bytes) :
  kv (afterPuts s bundle cert) !! "ca" = Some cert.
Proof. unfold afterPuts; simpl. apply lookup_insert_eq. Qed.

Lemma afterPuts_other (s : Storage) (bundle cert : bytes) (k : string) :
  k <> "config/ca_bundle" -> k <> "ca" ->
  kv (afterPuts s bundle cert) !! k = kv s !! k.
Proof.
  intros N1 N2. unfold afterPuts; simpl.
  rewrite !lookup_insert_ne by congruence. reflexivity.
Qed.

(** C1: in every CA write whose two storage writes (config/ca_bundle and
    ca) succeed, the run is exactly: the two writes, then one call of the
    CRL builder with forceNew = true.  What the builder returns is the
    error of the operation; the handler does nothing after it: the final
    storage is the builder's output on a storage that holds the new bundle
    and the new certificate bytes, and with a builder that leaves the two
    entries alone they are still there after a failed build. *)
Theorem pathCAWrite_builds_crl_once
    (pemBundle : string) (s : Storage) (bundle cert : bytes) :
  In (EvPut "config/ca_bundle" bundle None) (events_of (pathCAWrite b pemBundle s)) ->
  In (EvPut "ca" cert None) (events_of (pathCAWrite b pemBundle s)) ->
  exists e : option error,
    events_of (pathCAWrite b pemBundle s) =
      [EvPut "config/ca_bundle" bundle None; EvPut "ca" cert None;
       EvBuildCRL true e] /\
    crl_calls (events_of (pathCAWrite b pemBundle s)) = 1 /\
    reply_of (pathCAWrite b pemBundle s) = {| resp := None; err := e |} /\
    buildCRL b true (afterPuts s bundle cert) =
      (final_of (pathCAWrite b pemBundle s), e) /\
    kv (afterPuts s bundle cert) !! "config/ca_bundle" = Some bundle /\
    kv (afterPuts s bundle cert) !! "ca" = Some cert /\
    (exists p cb, ParsePEMBundle b pemBundle = Ok p /\
                  ToCertBundle b p = Ok cb /\
                  EncodeJSON b cb = Ok bundle /\
                  cert = CertificateBytes p) /\
    (crl_keeps b "config/ca_bundle" -> crl_keeps b "ca" ->
     kv (final_of (pathCAWrite b pemBundle s)) !! "config/ca_bundle" = Some bundle /\
     kv (final_of (pathCAWrite b pemBundle s)) !! "ca" = Some cert).
Proof.
  intros H1 H2.
  destruct (pathCAWrite_run b pemBundle s) as [[r E]|(p & V & EP & R)].
  { rewrite E in H1. contradiction. }
  set (run := pathCAWrite b pemBundle s) in *. clearbody run.
  destruct R as [e C|cb e C J|cb enc e C J|cb enc e C J|cb enc s' e C J B];
    unfold events_of, reply_of, final_of in *; simpl in *.
  - contradiction.
  - contradiction.
  - destruct H1 as [H1|[]]; discriminate.
  - destruct H2 as [H2|[H2|[]]]; discriminate.
  - destruct H1 as [H1|[H1|[H1|[]]]]; try discriminate.
    destruct H2 as [H2|[H2|[H2|[]]]]; try discriminate.
    injection H1 as <-. injection H2 as <-.
    exists e.
    split; [reflexivity|]. split; [reflexivity|]. split; [reflexivity|].
    split; [exact B|].
    split; [apply afterPuts_bundle|]. split; [apply afterPuts_ca|].
    split; [exists p, cb; auto|].
    intros K1 K2.
    specialize (K1 true (afterPuts s enc (CertificateBytes p))).
    specialize (K2 true (afterPuts s enc (CertificateBytes p))).
    rewrite B in K1, K2; simpl in K1, K2. rewrite K1, K2.
    split; [apply afterPuts_bundle|apply afterPuts_ca].
Qed.

(** C9: the handler puts under the keys config/ca_bundle and ca only.  For
    any other key, config/issuers among them, every run, failing or not,
    either leaves the entry as it was, or ends with the CRL builder, called
    on a storage where the entry is as it was; so a builder that leaves the
    key alone means the run leaves it alone. *)
Theorem pathCAWrite_frame (pemBundle : string) (s : Storage) :
  (forall k v res,
      In (EvPut k v res) (events_of (pathCAWrite b pemBundle s)) ->
      k = "config/ca_bundle" \/ k = "ca") /\
  (forall k, k <> "config/ca_bundle" -> k <> "ca" ->
      kv (final_of (pathCAWrite b pemBundle s)) !! k = kv s !! k
      \/ exists mid e,
           kv mid !! k = kv s !! k /\
           buildCRL b true mid = (final_of (pathCAWrite b pemBundle s), e) /\
           In (EvBuildCRL true e) (events_of (pathCAWrite b pemBundle s))) /\
  (forall k, k <> "config/ca_bundle" -> k <> "ca" -> crl_keeps b k ->
      kv (final_of (pathCAWrite b pemBundle s)) !! k = kv s !! k).
Proof.
  destruct (pathCAWrite_run b pemBundle s) as [[r E]|(p & V & EP & R)].
  { rewrite E; unfold events_of, final_of; simpl.
    repeat split; intros; auto; contradiction. }
  set (run := pathCAWrite b pemBundle s) in *. clearbody run.
  destruct R as [e C|cb e C J|cb enc e C J|cb enc e C J|cb enc s' e C J B];
    unfold events_of, final_of; simpl.
  - repeat split; intros; auto; contradiction.
  - repeat split; intros; auto; contradiction.
  - repeat split; intros; auto.
    destruct H as [[= <- _ _]|[]]; auto.
  - repeat split; intros.
    + destruct H as [[= <- _ _]|[[= <- _ _]|[]]]; auto.
    + left. rewrite lookup_insert_ne by congruence. reflexivity.
    + rewrite lookup_insert_ne by congruence. reflexivity.
  - repeat split; intros.
    + destruct H as [[= <- _ _]|[[= <- _ _]|[H|[]]]]; auto; discriminate.
    + right. exists (afterPuts s enc (CertificateBytes p)), e.
      split; [apply afterPuts_other; assumption|]. split; [exact B|].
      right; right; left; reflexivity.
    + specialize (H1 true (afterPuts s enc (CertificateBytes p))).
      rewrite B in H1; simpl in H1. rewrite H1.
      apply afterPuts_other; assumption.
Qed.

End CAWrite.

(** ** Completed writes *)

Section CompletedWrite.

Variable b : backend.

Lemma next_two_first (s : Storage) :
  next_two_ops_ok s = true -> next_op_ok s = true.
Proof.
  unfold next_two_ops_ok, next_op_ok.
  destruct (faults s) as [|[e|] fs]; auto.
Qed.

Lemma next_two_second (s : Storage) (m : gmap string bytes) :
  next_two_ops_ok s = true ->
  next_op_ok {| kv := m; faults := tail (faults s) |} = true.
Proof.
  unfold next_two_ops_ok, next_op_ok; simpl.
  destruct (faults s) as [|[e|] [|[e'|] fs]]; simpl; auto.
Qed.

(** With both conversions and both storage writes working, the storing
    part is the two writes and the CRL build. *)
Lemma storeAndRebuild_ok (p : ParsedCertBundle) (s : Storage)
    (cb : CertBundle b) (encoded : bytes) :
  ToCertBundle b p = Ok cb ->
  EncodeJSON b cb = Ok encoded ->
  next_two_ops_ok s = true ->
  storeAndRebuild b p s =
    (finish (snd (buildCRL b true (afterPuts s encoded (CertificateBytes p)))),
     fst (buildCRL b true (afterPuts s encoded (CertificateBytes p))),
     [EvPut "config/ca_bundle" encoded None;
      EvPut "ca" (CertificateBytes p) None;
      EvBuildCRL true
        (snd (buildCRL b true (afterPuts s encoded (CertificateBytes p))))]).
Proof.
  intros C J F.
  unfold storeAndRebuild, StorageEntryJSON. rewrite C, J.
  unfold bind.
  rewrite (Put_works _ s (next_two_first s F)); simpl.
  rewrite Put_works by (apply next_two_second; exact F); simpl.
  unfold callBuildCRL, afterPuts.
  destruct (buildCRL b true _) as [s' e]; reflexivity.
Qed.

(** A run in which both storage writes succeeded went through to the CRL
    build. *)
Lemma pathCAWrite_completed
    (pemBundle : string) (s : Storage) (bundle cert : bytes) :
  In (EvPut "config/ca_bundle" bundle None) (events_of (pathCAWrite b pemBundle s)) ->
  In (EvPut "ca" cert None) (events_of (pathCAWrite b pemBundle s)) ->
  exists p cb s' e,
    valid_bundle b pemBundle /\
    ParsePEMBundle b pemBundle = Ok p /\
    ToCertBundle b p = Ok cb /\
    EncodeJSON b cb = Ok bundle /\
    cert = CertificateBytes p /\
    buildCRL b true (afterPuts s bundle cert) = (s', e) /\
    pathCAWrite b pemBundle s =
      (finish e, s',
       [EvPut "config/ca_bundle" bundle None; EvPut "ca" cert None;
        EvBuildCRL true e]).
Proof.
  intros H1 H2.
  destruct (pathCAWrite_run b pemBundle s) as [[r E]|(p & V & EP & R)].
  { rewrite E in H1. contradiction. }
  set (run := pathCAWrite b pemBundle s) in *. clearbody run.
  destruct R as [e C|cb e C J|cb enc e C J|cb enc e C J|cb enc s' e C J B];
    unfold events_of in *; simpl in *.
  - contradiction.
  - contradiction.
  - destruct H1 as [H1|[]]; discriminate.
  - destruct H2 as [H2|[H2|[]]]; discriminate.
  - destruct H1 as [H1|[H1|[H1|[]]]]; try discriminate.
    destruct H2 as [H2|[H2|[H2|[]]]]; try discriminate.
    injection H1 as <-. injection H2 as <-.
    exists p, cb, s', e. repeat split; auto.
Qed.

(** C2, amended: for a bundle that passes the six checks, when the
    conversion to the storage form, its JSON encoding and the two storage
    writes work, the run writes the encoded bundle under config/ca_bundle
    first and the certificate bytes of the same parsed bundle under ca
    second, then builds the CRL.  With a CRL builder that leaves the two
    entries alone, a following Get of ca that works returns exactly the
    certificate bytes, and a following Get of config/ca_bundle that works
    returns an entry from which the same certificate bytes are recovered,
    the encoded bundle decoding back to them. *)
Theorem pathCAWrite_round_trip
    (pemBundle : string) (s : Storage) (p : ParsedCertBundle)
    (cb : CertBundle b) (encoded : bytes) :
  valid_bundle b pemBundle ->
  ParsePEMBundle b pemBundle = Ok p ->
  ToCertBundle b p = Ok cb ->
  EncodeJSON b cb = Ok encoded ->
  next_two_ops_ok s = true ->
  crl_keeps b "config/ca_bundle" ->
  crl_keeps b "ca" ->
  storedCertificate b encoded = Some (CertificateBytes p) ->
  next_op_ok (final_of (pathCAWrite b pemBundle s)) = true ->
  (exists e, events_of (pathCAWrite b pemBundle s) =
     [EvPut "config/ca_bundle" encoded None;
      EvPut "ca" (CertificateBytes p) None;
      EvBuildCRL true e]) /\
  reply_of (Get "ca" (final_of (pathCAWrite b pemBundle s))) =
    Ok (Some {| Key := "ca"; Value := CertificateBytes p |}) /\
  exists stored,
    reply_of (Get "config/ca_bundle" (final_of (pathCAWrite b pemBundle s))) =
      Ok (Some {| Key := "config/ca_bundle"; Value := stored |}) /\
    storedCertificate b stored = Some (CertificateBytes p).
Proof.
  intros V EP C J F K1 K2 RT G.
  rewrite (pathCAWrite_valid b _ _ V EP) in *.
  rewrite (storeAndRebuild_ok p s cb encoded C J F) in *.
  unfold events_of, final_of in *; simpl in *.
  split; [eauto|].
  rewrite !Get_works by exact G. unfold reply_of; simpl.
  rewrite (K1 true), (K2 true), afterPuts_bundle, afterPuts_ca; simpl.
  split; [reflexivity|]. exists encoded. split; [reflexivity|exact RT].
Qed.

(** C8, amended: for a bundle that passes the six checks, when the two
    storage writes of the first CA write succeed, the store that write
    leaves still holds the two entries it wrote, and building the CRL once
    more over that store, the two entries written again, changes nothing in
    it, a second CA write with the same bundle leaves the store as the
    first one left it, whether or not the storage operations of the second
    write work.  The two conditions on the CRL builder are about the one
    store the first write left, not about the builder at large. *)
Theorem pathCAWrite_idempotent
    (pemBundle : string) (s : Storage) (bundle cert : bytes) :
  valid_bundle b pemBundle ->
  In (EvPut "config/ca_bundle" bundle None) (events_of (pathCAWrite b pemBundle s)) ->
  In (EvPut "ca" cert None) (events_of (pathCAWrite b pemBundle s)) ->
  kv (final_of (pathCAWrite b pemBundle s)) !! "config/ca_bundle" = Some bundle ->
  kv (final_of (pathCAWrite b pemBundle s)) !! "ca" = Some cert ->
  kv (fst (buildCRL b true
             (afterPuts (final_of (pathCAWrite b pemBundle s)) bundle cert)))
    = kv (final_of (pathCAWrite b pemBundle s)) ->
  kv (final_of (pathCAWrite b pemBundle (final_of (pathCAWrite b pemBundle s))))
  = kv (final_of (pathCAWrite b pemBundle s)).
Proof.
  intros _ H1 H2.
  destruct (pathCAWrite_completed _ _ _ _ H1 H2)
    as (p & cb & s1 & e & V & EP & C & J & -> & B & E).
  rewrite E. unfold final_of at 1 2 3 5 6; simpl.
  intros L1 L2 KS.
  rewrite (pathCAWrite_valid b _ _ V EP).
  pose proof (storeAndRebuild_run b p s1) as R.
  set (run := storeAndRebuild b p s1) in *. clearbody run.
  destruct R as [e' C'|cb' e' C' J'|cb' enc e' C' J'|cb' enc e' C' J'
                |cb' enc s' e' C' J' B'];
    unfold final_of; simpl; try reflexivity;
    rewrite C in C'; injection C' as <-;
    rewrite J in J'; injection J' as <-.
  - apply insert_id; exact L1.
  - rewrite B' in KS. exact KS.
Qed.

End CompletedWrite.

(** ** The issuer configuration *)

Section Issuers.

Variable b : backend.

Lemma lower_default_not_empty (v : string) :
  lower v = lower "default" -> v <> "".
Proof. intros H ->. discriminate. Qed.

(** A value that is neither empty nor the reserved alias goes to the
    resolution, and the reply is decided by what follows. *)
Lemma pathCAIssuersWrite_forwarded (newDefault : string) :
  newDefault <> "" ->
  newDefault <> "default" ->
  pathCAIssuersWrite b newDefault =
    (r <- resolveIssuerReference b newDefault ;;
     match r with
     | Err e =>
         ret (respond (ErrorResponse
           ("Error resolving issuer reference: " ++ Error e)))
     | Ok parsedIssuer =>
         e <- updateDefaultIssuerId b parsedIssuer ;;
         match e with
         | Some e =>
             ret (respond (ErrorResponse
               ("Error updating issuer configuration: " ++ Error e)))
         | None =>
             ret (respond {| Data := {[ "default" := parsedIssuer ]} |})
         end
     end).
Proof.
  intros N1 N2. unfold pathCAIssuersWrite.
  destruct newDefault as [|c rest]; [contradiction|]. simpl.
  rewrite bool_decide_eq_false_2 by exact N2. reflexivity.
Qed.

Lemma resolveIssuerReference_logged (reference : string) (s : Storage) :
  exists t,
    events_of (resolveIssuerReference b reference s) = EvResolve reference :: t.
Proof.
  unfold resolveIssuerReference. rewrite emit_then_events. eauto.
Qed.

Lemma pathCAIssuersWrite_resolve_failed
    (newDefault : string) (s s1 : Storage) (t1 : list Event) (e : error) :
  newDefault <> "" ->
  newDefault <> "default" ->
  resolveIssuerReference b newDefault s = (Err e, s1, t1) ->
  pathCAIssuersWrite b newDefault s =
    (respond (ErrorResponse ("Error resolving issuer reference: " ++ Error e)),
     s1, t1).
Proof.
  intros N1 N2 R. rewrite (pathCAIssuersWrite_forwarded _ N1 N2).
  unfold bind. rewrite R. unfold ret. rewrite app_nil_r. reflexivity.
Qed.

Lemma pathCAIssuersWrite_resolved
    (newDefault : string) (s s1 s2 : Storage) (t1 t2 : list Event)
    (id : issuerId) (e : option error) :
  newDefault <> "" ->
  newDefault <> "default" ->
  resolveIssuerReference b newDefault s = (Ok id, s1, t1) ->
  updateDefaultIssuerId b id s1 = (e, s2, t2) ->
  pathCAIssuersWrite b newDefault s =
    (match e with
     | Some e =>
         respond (ErrorResponse
           ("Error updating issuer configuration: " ++ Error e))
     | None => respond {| Data := {[ "default" := id ]} |}
     end, s2, t1 ++ t2).
Proof.
  intros N1 N2 R U. rewrite (pathCAIssuersWrite_forwarded _ N1 N2).
  unfold bind. rewrite R, U.
  destruct e; unfold ret; rewrite app_nil_r; reflexivity.
Qed.

Lemma pathCAIssuersRead_loaded
    (s s1 : Storage) (t1 : list Event) (r : result issuerConfig) :
  getIssuersConfig b s = (r, s1, t1) ->
  pathCAIssuersRead b s =
    (match r with
     | Err e =>
         respond (ErrorResponse
           ("Error loading issuers configuration: " ++ Error e))
     | Ok config => respond {| Data := {[ "default" := DefaultIssuerId config ]} |}
     end, s1, t1).
Proof.
  intros G. unfold pathCAIssuersRead, bind. rewrite G.
  destruct r; unfold ret; rewrite app_nil_r; reflexivity.
Qed.

(** C6: an issuer-config write whose value is the empty string or the
    literal default is answered with a structured error response, whatever
    the backend's issuers and whatever the storage holds; the run performs
    no resolution and no storage operation, and the storage, the stored
    issuers configuration with it, is the one the run started from. *)
Theorem pathCAIssuersWrite_rejects_reserved (newDefault : string) (s : Storage) :
  newDefault = "" \/ newDefault = "default" ->
  pathCAIssuersWrite b newDefault s =
    ({| resp := Some (ErrorResponse
          "Invalid issuer specification; must be non-empty and can't be 'default'.");
        err := None |},
     s, []).
Proof. intros [-> | ->]; reflexivity. Qed.

(** C10: the reserved alias is recognised by exact string equality.  A
    value that differs from default in letter case only is not answered
    with the rejection of the reserved alias: the first thing the run does
    is resolve the value as an issuer reference, and a failure of that
    resolution is what the reply reports. *)
Theorem pathCAIssuersWrite_case_sensitive (newDefault : string) (s : Storage) :
  lower newDefault = lower "default" ->
  newDefault <> "default" ->
  reply_of (pathCAIssuersWrite b newDefault s) <>
    respond (ErrorResponse
      "Invalid issuer specification; must be non-empty and can't be 'default'.") /\
  (exists t,
     events_of (pathCAIssuersWrite b newDefault s) = EvResolve newDefault :: t) /\
  (forall e s1 t1,
     resolveIssuerReference b newDefault s = (Err e, s1, t1) ->
     pathCAIssuersWrite b newDefault s =
       (respond (ErrorResponse ("Error resolving issuer reference: " ++ Error e)),
        s1, t1)).
Proof.
  intros L N2.
  pose proof (lower_default_not_empty _ L) as N1.
  destruct (resolveIssuerReference_logged newDefault s) as [t T].
  destruct (resolveIssuerReference b newDefault s) as [[r s1] t1] eqn:R.
  unfold events_of in T; simpl in T; subst t1.
  split; [|split].
  - destruct r as [id|e].
    + destruct (updateDefaultIssuerId b id s1) as [[eo s2] t2] eqn:U.
      rewrite (pathCAIssuersWrite_resolved _ _ _ _ _ _ _ _ N1 N2 R U).
      unfold reply_of; simpl.
      destruct eo as [e|]; intros H; apply respond_inj in H.
      * apply ErrorResponse_inj in H. discriminate.
      * exact (default_is_not_error _ _ H).
    + rewrite (pathCAIssuersWrite_resolve_failed _ _ _ _ _ N1 N2 R).
      unfold reply_of; simpl. intros H; apply respond_inj in H.
      apply ErrorResponse_inj in H. discriminate.
  - destruct r as [id|e].
    + destruct (updateDefaultIssuerId b id s1) as [[eo s2] t2] eqn:U.
      rewrite (pathCAIssuersWrite_resolved _ _ _ _ _ _ _ _ N1 N2 R U).
      unfold events_of; simpl. eauto.
    + rewrite (pathCAIssuersWrite_resolve_failed _ _ _ _ _ N1 N2 R).
      unfold events_of; simpl. eauto.
  - intros e s1' t1' H. injection H as -> <- <-.
    apply (pathCAIssuersWrite_resolve_failed _ _ _ _ _ N1 N2 R).
Qed.

End Issuers.

(** ** Writing, then reading, the default issuer; failures by handler *)

Section IssuerRoundTrip.

Variable b : backend.

Lemma updateDefaultIssuerId_works (id : issuerId) (s : Storage) (encoded : bytes) :
  encodeIssuerConfig b {| DefaultIssuerId := id |} = Ok encoded ->
  next_op_ok s = true ->
  updateDefaultIssuerId b id s =
    (None,
     {| kv := <[ "config/issuers" := encoded ]> (kv s); faults := tail (faults s) |},
     [EvPut "config/issuers" encoded None]).
Proof.
  intros E F. unfold updateDefaultIssuerId. rewrite E.
  rewrite (Put_works _ s F). reflexivity.
Qed.

Lemma getIssuersConfig_stored (s : Storage) (encoded : bytes) (config : issuerConfig) :
  kv s !! "config/issuers" = Some encoded ->
  decodeIssuerConfig b encoded = Some config ->
  next_op_ok s = true ->
  getIssuersConfig b s =
    (Ok config, {| kv := kv s; faults := tail (faults s) |},
     [EvGet "config/issuers" None]).
Proof.
  intros L D F. unfold getIssuersConfig, bind.
  rewrite (Get_works _ s F), L; simpl. rewrite D. reflexivity.
Qed.

(** C7, amended: for an issuer-config write whose value passes the
    validation and resolves to an issuer identifier, when the storage
    write of the update works, the configuration with the resolved
    identifier is what is stored under config/issuers and the reply is
    { default: the resolved identifier }; a following issuer-config read
    whose storage read works, the stored configuration decoding back,
    replies { default: that same identifier }. *)
Theorem pathCAIssuersWrite_then_read
    (newDefault : string) (s s1 : Storage) (t1 : list Event)
    (id : issuerId) (encoded : bytes) :
  newDefault <> "" ->
  newDefault <> "default" ->
  resolveIssuerReference b newDefault s = (Ok id, s1, t1) ->
  encodeIssuerConfig b {| DefaultIssuerId := id |} = Ok encoded ->
  decodeIssuerConfig b encoded = Some {| DefaultIssuerId := id |} ->
  next_two_ops_ok s1 = true ->
  reply_of (pathCAIssuersWrite b newDefault s) =
    {| resp := Some {| Data := {[ "default" := id ]} |}; err := None |} /\
  kv (final_of (pathCAIssuersWrite b newDefault s)) !! "config/issuers"
    = Some encoded /\
  reply_of (getIssuersConfig b (final_of (pathCAIssuersWrite b newDefault s)))
    = Ok {| DefaultIssuerId := id |} /\
  reply_of (pathCAIssuersRead b (final_of (pathCAIssuersWrite b newDefault s))) =
    {| resp := Some {| Data := {[ "default" := id ]} |}; err := None |}.
Proof.
  intros N1 N2 R E D F.
  pose proof (updateDefaultIssuerId_works id s1 encoded E (next_two_first s1 F)) as U.
  rewrite (pathCAIssuersWrite_resolved b _ _ _ _ _ _ _ _ N1 N2 R U).
  unfold reply_of at 1, final_of; simpl.
  split; [reflexivity|].
  split; [apply lookup_insert_eq|].
  set (s2 := {| kv := <[ "config/issuers" := encoded ]> (kv s1);
                faults := tail (faults s1) |}).
  assert (L : kv s2 !! "config/issuers" = Some encoded)
    by apply lookup_insert_eq.
  pose proof (getIssuersConfig_stored s2 encoded _ L D
                (next_two_second s1 _ F)) as G.
  split.
  - rewrite G. reflexivity.
  - rewrite (pathCAIssuersRead_loaded b _ _ _ _ G). reflexivity.
Qed.

(** C4, amended: in the CA write every internal failure is the error of
    the operation, with no response: a failed conversion to the storage
    form (wrapped with the handler's message), a failed JSON encoding, a
    failed storage Put and a failed CRL build.  The issuer-config read and
    the issuer-config write never return an operation error: a failure to
    load the configuration (a failed storage Get among them) and a failure
    to update it (a failed storage Put among them) come back in a
    structured error response, the error's message after the handler's
    prefix. *)
Theorem internal_failures_by_handler
    (pemBundle newDefault : string) (s : Storage) :
  (forall p e,
      valid_bundle b pemBundle ->
      ParsePEMBundle b pemBundle = Ok p ->
      ToCertBundle b p = Err e ->
      pathCAWrite b pemBundle s =
        ({| resp := None;
            err := Some (Errorf_w "error converting raw values into cert bundle: " e) |},
         s, [])) /\
  (forall p cb e,
      valid_bundle b pemBundle ->
      ParsePEMBundle b pemBundle = Ok p ->
      ToCertBundle b p = Ok cb ->
      EncodeJSON b cb = Err e ->
      pathCAWrite b pemBundle s = ({| resp := None; err := Some e |}, s, [])) /\
  (forall k v e,
      In (EvPut k v (Some e)) (events_of (pathCAWrite b pemBundle s)) ->
      reply_of (pathCAWrite b pemBundle s) = {| resp := None; err := Some e |}) /\
  (forall f e,
      In (EvBuildCRL f (Some e)) (events_of (pathCAWrite b pemBundle s)) ->
      reply_of (pathCAWrite b pemBundle s) = {| resp := None; err := Some e |}) /\
  err (reply_of (pathCAIssuersRead b s)) = None /\
  (forall e s1 t1,
      getIssuersConfig b s = (Err e, s1, t1) ->
      reply_of (pathCAIssuersRead b s) =
        {| resp := Some (ErrorResponse
             ("Error loading issuers configuration: " ++ Error e));
           err := None |}) /\
  err (reply_of (pathCAIssuersWrite b newDefault s)) = None /\
  (forall id s1 t1 e s2 t2,
      newDefault <> "" ->
      newDefault <> "default" ->
      resolveIssuerReference b newDefault s = (Ok id, s1, t1) ->
      updateDefaultIssuerId b id s1 = (Some e, s2, t2) ->
      reply_of (pathCAIssuersWrite b newDefault s) =
        {| resp := Some (ErrorResponse
             ("Error updating issuer configuration: " ++ Error e));
           err := None |}).
Proof.
  repeat apply conj.
  - intros p e V EP C. rewrite (pathCAWrite_valid b _ _ V EP).
    unfold storeAndRebuild. rewrite C. reflexivity.
  - intros p cb e V EP C J. rewrite (pathCAWrite_valid b _ _ V EP).
    unfold storeAndRebuild, StorageEntryJSON. rewrite C, J. reflexivity.
  - intros k v e H.
    destruct (pathCAWrite_run b pemBundle s) as [[r E]|(p & V & EP & R)].
    { rewrite E in H. contradiction. }
    set (run := pathCAWrite b pemBundle s) in *. clearbody run.
    destruct R; unfold events_of, reply_of in *; simpl in *.
    + contradiction.
    + contradiction.
    + destruct H as [H|[]]. injection H as _ _ <-. reflexivity.
    + destruct H as [H|[H|[]]]; [discriminate|].
      injection H as _ _ <-. reflexivity.
    + destruct H as [H|[H|[H|[]]]]; discriminate.
  - intros f e H.
    destruct (pathCAWrite_run b pemBundle s) as [[r E]|(p & V & EP & R)].
    { rewrite E in H. contradiction. }
    set (run := pathCAWrite b pemBundle s) in *. clearbody run.
    destruct R; unfold events_of, reply_of in *; simpl in *.
    + contradiction.
    + contradiction.
    + destruct H as [H|[]]; discriminate.
    + destruct H as [H|[H|[]]]; discriminate.
    + destruct H as [H|[H|[H|[]]]]; try discriminate.
      injection H as _ <-. reflexivity.
  - destruct (getIssuersConfig b s) as [[r s1] t1] eqn:G.
    rewrite (pathCAIssuersRead_loaded b _ _ _ _ G).
    destruct r; reflexivity.
  - intros e s1 t1 G.
    rewrite (pathCAIssuersRead_loaded b _ _ _ _ G). reflexivity.
  - destruct (decide (newDefault = "")) as [->|N1]; [reflexivity|].
    destruct (decide (newDefault = "default")) as [->|N2]; [reflexivity|].
    destruct (resolveIssuerReference b newDefault s) as [[[id|e] s1] t1] eqn:R.
    + destruct (updateDefaultIssuerId b id s1) as [[eo s2] t2] eqn:U.
      rewrite (pathCAIssuersWrite_resolved b _ _ _ _ _ _ _ _ N1 N2 R U).
      destruct eo; reflexivity.
    + rewrite (pathCAIssuersWrite_resolve_failed b _ _ _ _ _ N1 N2 R).
      reflexivity.
  - intros id s1 t1 e s2 t2 N1 N2 R U.
    rewrite (pathCAIssuersWrite_resolved b _ _ _ _ _ _ _ _ N1 N2 R U).
    reflexivity.
Qed.

End IssuerRoundTrip.

(** ** The handlers on the in-memory backend *)

Lemma crlStore_keeps (issuers : list issuer) (key : string) :
  key <> "crl" -> crl_keeps (Fixture.make Fixture.crlStore issuers) key.
Proof.
  intros N forceNew s. simpl.
  apply lookup_insert_ne. congruence.
Qed.

(** The checks one by one, on the texts the example parser knows. *)
Example pathCAWrite_no_key :
  pathCAWrite Fixture.pki "CA-CERT" Fixture.empty =
    (respond (ErrorResponse "private key not found in the PEM bundle"),
     Fixture.empty, []).
Proof. reflexivity. Qed.

Example pathCAWrite_not_a_ca :
  pathCAWrite Fixture.pki "KEY+LEAF-CERT" Fixture.empty =
    (respond (ErrorResponse
       "the given certificate is not marked for CA use and cannot be used with this backend"),
     Fixture.empty, []).
Proof. reflexivity. Qed.

Example pathCAWrite_not_pem :
  pathCAWrite Fixture.pki "hello" Fixture.empty =
    (respond (ErrorResponse "no data found in PEM block"), Fixture.empty, []).
Proof. reflexivity. Qed.

Example pathCAWrite_stores :
  events_of (pathCAWrite Fixture.pki "KEY+CA-CERT" Fixture.empty) =
    [EvPut "config/ca_bundle" Fixture.certBytes None;
     EvPut "ca" Fixture.certBytes None; EvBuildCRL true None]
  /\ reply_of (pathCAWrite Fixture.pki "KEY+CA-CERT" Fixture.empty) =
       {| resp := None; err := None |}.
Proof. split; reflexivity. Qed.

Example pathCAIssuersRead_never_set :
  reply_of (pathCAIssuersRead Fixture.pki Fixture.empty) =
    respond {| Data := {[ "default" := "" ]} |}.
Proof. reflexivity. Qed.

Example pathCAIssuersWrite_unknown :
  reply_of (pathCAIssuersWrite Fixture.pki "beta" Fixture.empty) =
    respond (ErrorResponse
      "Error resolving issuer reference: unable to find PKI issuer for reference: beta").
Proof. reflexivity. Qed.

(** An empty bundle is turned down at the first check. *)
Lemma pathCAWrite_first_failure_wins_witness :
  first_failure (validation_steps Fixture.pki "")
    = Some (UserInputError "'pem_bundle' was empty") /\
  pathCAWrite Fixture.pki "" Fixture.empty =
    (respond (ErrorResponse "'pem_bundle' was empty"), Fixture.empty, []).
Proof.
  split; [reflexivity|].
  apply (pathCAWrite_first_failure_wins Fixture.pki "" Fixture.empty).
  reflexivity.
Defined.

(** An internal failure of the parser is the error of the operation. *)
Lemma pathCAWrite_parse_failure_witness :
  ParsePEMBundle Fixture.pki "PANIC" = Err (InternalError "pem decoder failed") /\
  pathCAWrite Fixture.pki "PANIC" Fixture.empty =
    ({| resp := None; err := Some (InternalError "pem decoder failed") |},
     Fixture.empty, []).
Proof.
  split; [reflexivity|].
  apply (pathCAWrite_parse_failure Fixture.pki "PANIC" Fixture.empty
           (InternalError "pem decoder failed")).
  - discriminate.
  - reflexivity.
Defined.

(** A CA write whose CRL build fails: the build error is the reply and the
    two entries are in the store. *)
Lemma pathCAWrite_builds_crl_once_witness :
  exists e : option error,
    events_of (pathCAWrite Fixture.pkiCrlDown "KEY+CA-CERT" Fixture.empty) =
      [EvPut "config/ca_bundle" Fixture.certBytes None;
       EvPut "ca" Fixture.certBytes None; EvBuildCRL true e] /\
    crl_calls (events_of (pathCAWrite Fixture.pkiCrlDown "KEY+CA-CERT" Fixture.empty)) = 1 /\
    reply_of (pathCAWrite Fixture.pkiCrlDown "KEY+CA-CERT" Fixture.empty)
      = {| resp := None; err := e |} /\
    buildCRL Fixture.pkiCrlDown true
        (afterPuts Fixture.empty Fixture.certBytes Fixture.certBytes) =
      (final_of (pathCAWrite Fixture.pkiCrlDown "KEY+CA-CERT" Fixture.empty), e) /\
    kv (afterPuts Fixture.empty Fixture.certBytes Fixture.certBytes)
      !! "config/ca_bundle" = Some Fixture.certBytes /\
    kv (afterPuts Fixture.empty Fixture.certBytes Fixture.certBytes)
      !! "ca" = Some Fixture.certBytes /\
    (exists p cb, ParsePEMBundle Fixture.pkiCrlDown "KEY+CA-CERT" = Ok p /\
                  ToCertBundle Fixture.pkiCrlDown p = Ok cb /\
                  EncodeJSON Fixture.pkiCrlDown cb = Ok Fixture.certBytes /\
                  Fixture.certBytes = CertificateBytes p) /\
    (crl_keeps Fixture.pkiCrlDown "config/ca_bundle" ->
     crl_keeps Fixture.pkiCrlDown "ca" ->
     kv (final_of (pathCAWrite Fixture.pkiCrlDown "KEY+CA-CERT" Fixture.empty))
       !! "config/ca_bundle" = Some Fixture.certBytes /\
     kv (final_of (pathCAWrite Fixture.pkiCrlDown "KEY+CA-CERT" Fixture.empty))
       !! "ca" = Some Fixture.certBytes).
Proof.
  apply (pathCAWrite_builds_crl_once Fixture.pkiCrlDown "KEY+CA-CERT"
           Fixture.empty Fixture.certBytes Fixture.certBytes).
  - vm_compute. left. reflexivity.
  - vm_compute. right. left. reflexivity.
Defined.

(** A CA write on a working store, read back. *)
Lemma pathCAWrite_round_trip_witness :
  valid_bundle Fixture.pki "KEY+CA-CERT" /\
  next_two_ops_ok Fixture.empty = true /\
  storedCertificate Fixture.pki Fixture.certBytes = Some Fixture.certBytes /\
  reply_of (Get "ca" (final_of (pathCAWrite Fixture.pki "KEY+CA-CERT" Fixture.empty)))
    = Ok (Some {| Key := "ca"; Value := Fixture.certBytes |}).
Proof.
  split; [reflexivity|]. split; [reflexivity|]. split; [reflexivity|].
  apply (pathCAWrite_round_trip Fixture.pki "KEY+CA-CERT" Fixture.empty
           Fixture.caBundle Fixture.certBytes Fixture.certBytes).
  - reflexivity.
  - reflexivity.
  - reflexivity.
  - reflexivity.
  - reflexivity.
  - apply crlStore_keeps. discriminate.
  - apply crlStore_keeps. discriminate.
  - reflexivity.
  - reflexivity.
Defined.

(** The same bundle written twice on a working store, with a CRL builder
    that stores its list through the request's storage. *)
Lemma pathCAWrite_idempotent_witness :
  valid_bundle Fixture.pkiStoring "KEY+CA-CERT" /\
  reply_of (pathCAWrite Fixture.pkiStoring "KEY+CA-CERT" Fixture.empty)
    = {| resp := None; err := None |} /\
  kv (final_of (pathCAWrite Fixture.pkiStoring "KEY+CA-CERT"
        (final_of (pathCAWrite Fixture.pkiStoring "KEY+CA-CERT" Fixture.empty))))
  = kv (final_of (pathCAWrite Fixture.pkiStoring "KEY+CA-CERT" Fixture.empty)).
Proof.
  split; [reflexivity|]. split; [reflexivity|].
  apply (pathCAWrite_idempotent Fixture.pkiStoring "KEY+CA-CERT" Fixture.empty
           Fixture.certBytes Fixture.certBytes).
  - reflexivity.
  - vm_compute. left. reflexivity.
  - vm_compute. right. left. reflexivity.
  - reflexivity.
  - reflexivity.
  - reflexivity.
Defined.

(** The reserved alias is turned down though an issuer exists. *)
Lemma pathCAIssuersWrite_rejects_reserved_witness :
  pathCAIssuersWrite Fixture.pki "default" Fixture.empty =
    ({| resp := Some (ErrorResponse
          "Invalid issuer specification; must be non-empty and can't be 'default'.");
        err := None |},
     Fixture.empty, []).
Proof.
  apply (pathCAIssuersWrite_rejects_reserved Fixture.pki "default" Fixture.empty).
  right. reflexivity.
Defined.

(** Default with a capital is resolved as a reference, and not found. *)
Lemma pathCAIssuersWrite_case_sensitive_witness :
  lower "Default" = lower "default" /\
  exists t,
    events_of (pathCAIssuersWrite Fixture.pki "Default" Fixture.empty)
      = EvResolve "Default" :: t.
Proof.
  split; [reflexivity|].
  apply (pathCAIssuersWrite_case_sensitive Fixture.pki "Default" Fixture.empty).
  - reflexivity.
  - discriminate.
Defined.

(** The scenario of the specification: alpha names the issuer id-123. *)
Lemma pathCAIssuersWrite_then_read_witness :
  resolveIssuerReference Fixture.pki "alpha" Fixture.empty =
    (Ok "id-123", Fixture.empty, [EvResolve "alpha"; EvListIssuers]) /\
  reply_of (pathCAIssuersRead Fixture.pki
              (final_of (pathCAIssuersWrite Fixture.pki "alpha" Fixture.empty))) =
    {| resp := Some {| Data := {[ "default" := "id-123" ]} |}; err := None |}.
Proof.
  split; [reflexivity|].
  apply (pathCAIssuersWrite_then_read Fixture.pki "alpha" Fixture.empty
           Fixture.empty [EvResolve "alpha"; EvListIssuers] "id-123"
           (String.list_byte_of_string "id-123")).
  - discriminate.
  - discriminate.
  - reflexivity.
  - reflexivity.
  - reflexivity.
  - reflexivity.
Defined.

(** ** Runs on a store that fails *)

(** Against C2 as first stated: a bundle that passes the six checks, on a
    store whose first write fails, leaves nothing under either key. *)
Lemma pathCAWrite_valid_bundle_not_persisted :
  valid_bundle Fixture.pki "KEY+CA-CERT" /\
  ParsePEMBundle Fixture.pki "KEY+CA-CERT" = Ok Fixture.caBundle /\
  events_of (pathCAWrite Fixture.pki "KEY+CA-CERT"
               (Fixture.faulty [Some Fixture.storageDown])) =
    [EvPut "config/ca_bundle" Fixture.certBytes (Some Fixture.storageDown)] /\
  reply_of (pathCAWrite Fixture.pki "KEY+CA-CERT"
              (Fixture.faulty [Some Fixture.storageDown])) =
    {| resp := None; err := Some Fixture.storageDown |} /\
  kv (final_of (pathCAWrite Fixture.pki "KEY+CA-CERT"
                  (Fixture.faulty [Some Fixture.storageDown]))) !! "ca" = None /\
  kv (final_of (pathCAWrite Fixture.pki "KEY+CA-CERT"
                  (Fixture.faulty [Some Fixture.storageDown])))
    !! "config/ca_bundle" = None.
Proof. repeat split; reflexivity. Qed.

(** Against C4 as first stated: a failed storage Get in the issuer-config read
    comes back in a structured error response, with no operation error. *)
Lemma pathCAIssuersRead_storage_failure_is_response :
  pathCAIssuersRead Fixture.pki (Fixture.faulty [Some Fixture.storageDown]) =
    ({| resp := Some (ErrorResponse
          "Error loading issuers configuration: storage is sealed");
        err := None |},
     Fixture.faulty [],
     [EvGet "config/issuers" (Some Fixture.storageDown)]).
Proof. reflexivity. Qed.

(** Against C7 as first stated: the value passes the validation and resolves
    to id-123, the storage write of the update fails, and the reply is a
    structured error, with nothing stored. *)
Lemma pathCAIssuersWrite_resolved_not_persisted :
  resolveIssuerReference Fixture.pki "alpha"
      (Fixture.faulty [Some Fixture.storageDown]) =
    (Ok "id-123", Fixture.faulty [Some Fixture.storageDown],
     [EvResolve "alpha"; EvListIssuers]) /\
  reply_of (pathCAIssuersWrite Fixture.pki "alpha"
              (Fixture.faulty [Some Fixture.storageDown])) =
    {| resp := Some (ErrorResponse
         "Error updating issuer configuration: storage is sealed");
       err := None |} /\
  reply_of (pathCAIssuersWrite Fixture.pki "alpha"
              (Fixture.faulty [Some Fixture.storageDown])) <>
    {| resp := Some {| Data := {[ "default" := "id-123" ]} |}; err := None |} /\
  kv (final_of (pathCAIssuersWrite Fixture.pki "alpha"
                  (Fixture.faulty [Some Fixture.storageDown])))
    !! "config/issuers" = None.
Proof.
  split; [reflexivity|]. split; [reflexivity|]. split; [|reflexivity].
  intros H.
  assert (E : reply_of (pathCAIssuersWrite Fixture.pki "alpha"
                          (Fixture.faulty [Some Fixture.storageDown])) =
              respond (ErrorResponse
                "Error updating issuer configuration: storage is sealed"))
    by reflexivity.
  rewrite E in H. apply respond_inj in H.
  symmetry in H. exact (default_is_not_error _ _ H).
Qed.

(** Against C8 as first stated, two runs.  In the first, the first write
    stores the bundle and fails on the certificate, the second write with
    the same bundle completes, and the store is not the one the first write
    left.  In the second, both writes of the first CA write succeed and its
    CRL build fails, the builder's own write failing; the second CA write
    builds the list, and again the store is not the one the first write
    left. *)
Lemma pathCAWrite_retry_changes_store :
  valid_bundle Fixture.pki "KEY+CA-CERT" /\
  kv (final_of (pathCAWrite Fixture.pki "KEY+CA-CERT"
                  (Fixture.faulty [None; Some Fixture.storageDown]))) !! "ca"
    = None /\
  kv (final_of (pathCAWrite Fixture.pki "KEY+CA-CERT"
        (final_of (pathCAWrite Fixture.pki "KEY+CA-CERT"
                     (Fixture.faulty [None; Some Fixture.storageDown]))))) !! "ca"
    = Some Fixture.certBytes /\
  kv (final_of (pathCAWrite Fixture.pki "KEY+CA-CERT"
        (final_of (pathCAWrite Fixture.pki "KEY+CA-CERT"
                     (Fixture.faulty [None; Some Fixture.storageDown])))))
  <> kv (final_of (pathCAWrite Fixture.pki "KEY+CA-CERT"
                     (Fixture.faulty [None; Some Fixture.storageDown]))) /\
  valid_bundle Fixture.pkiStoring "KEY+CA-CERT" /\
  events_of (pathCAWrite Fixture.pkiStoring "KEY+CA-CERT"
               (Fixture.faulty [None; None; Some Fixture.storageDown])) =
    [EvPut "config/ca_bundle" Fixture.certBytes None;
     EvPut "ca" Fixture.certBytes None;
     EvBuildCRL true (Some Fixture.storageDown)] /\
  kv (final_of (pathCAWrite Fixture.pkiStoring "KEY+CA-CERT"
        (final_of (pathCAWrite Fixture.pkiStoring "KEY+CA-CERT"
                     (Fixture.faulty [None; None; Some Fixture.storageDown])))))
  <> kv (final_of (pathCAWrite Fixture.pkiStoring "KEY+CA-CERT"
                     (Fixture.faulty [None; None; Some Fixture.storageDown]))).
Proof.
  split; [reflexivity|]. split; [reflexivity|]. split; [reflexivity|].
  split.
  { intros H.
    apply (f_equal (fun m : gmap string bytes => m !! "ca")) in H.
    vm_compute in H. discriminate. }
  split; [reflexivity|]. split; [reflexivity|].
  intros H.
  apply (f_equal (fun m : gmap string bytes => m !! "crl")) in H.
  vm_compute in H. discriminate.
Qed.

(** * Further properties of the handlers *)

(** ** The runs of [pathCAWrite] *)

Section CAWriteRuns.

Variable b : backend.

(** X1: a CA write that answers with a response answers with the
    rejection of the first check that failed, and has then done nothing:
    no error of the operation, the storage it started from, no call
    logged. *)
Theorem pathCAWrite_response_is_rejection
    (pemBundle : string) (s : Storage) (r : Response) :
  resp (reply_of (pathCAWrite b pemBundle s)) = Some r ->
  (exists msg,
     r = ErrorResponse msg /\
     first_failure (validation_steps b pemBundle) = Some (UserInputError msg)) /\
  err (reply_of (pathCAWrite b pemBundle s)) = None /\
  final_of (pathCAWrite b pemBundle s) = s /\
  events_of (pathCAWrite b pemBundle s) = [].
Proof.
  destruct (first_failure (validation_steps b pemBundle)) as [f|] eqn:F.
  - rewrite (pathCAWrite_invalid_pure b _ s _ F).
    unfold reply_of, final_of, events_of; simpl.
    destruct f as [msg|e]; simpl; intros H; [|discriminate].
    injection H as <-.
    split; [exists msg; split; reflexivity|]. auto.
  - destruct (valid_bundle_inv b _ F) as (_ & p & _ & _ & EP & _).
    rewrite (pathCAWrite_valid b _ _ F EP).
    pose proof (storeAndRebuild_run b p s) as R.
    set (run := storeAndRebuild b p s) in *. clearbody run.
    destruct R; unfold reply_of; simpl; discriminate.
Qed.

(** X2: a CA write that returns neither a response nor an error has
    written the encoded bundle and the certificate bytes, both writes
    succeeding, and has then built the CRL without error; its final storage
    is what the builder made of the store holding the two entries. *)
Theorem pathCAWrite_silent_means_stored (pemBundle : string) (s : Storage) :
  reply_of (pathCAWrite b pemBundle s) = {| resp := None; err := None |} ->
  exists p cb encoded,
    ParsePEMBundle b pemBundle = Ok p /\
    ToCertBundle b p = Ok cb /\
    EncodeJSON b cb = Ok encoded /\
    events_of (pathCAWrite b pemBundle s) =
      [EvPut "config/ca_bundle" encoded None;
       EvPut "ca" (CertificateBytes p) None;
       EvBuildCRL true None] /\
    buildCRL b true (afterPuts s encoded (CertificateBytes p)) =
      (final_of (pathCAWrite b pemBundle s), None).
Proof.
  destruct (first_failure (validation_steps b pemBundle)) as [f|] eqn:F.
  - rewrite (pathCAWrite_invalid_pure b _ s _ F).
    unfold reply_of; simpl. destruct f; discriminate.
  - destruct (valid_bundle_inv b _ F) as (_ & p & _ & _ & EP & _).
    rewrite (pathCAWrite_valid b _ _ F EP).
    pose proof (storeAndRebuild_run b p s) as R.
    set (run := storeAndRebuild b p s) in *. clearbody run.
    destruct R as [e C|cb e C J|cb enc e C J|cb enc e C J|cb enc s' e C J B];
      unfold reply_of, events_of, final_of; simpl; try discriminate.
    intros H. injection H as ->.
    exists p, cb, enc. auto.
Qed.

(** X3: the calls a CA write makes have one of four shapes: none; one
    failed write of the bundle; the bundle written and a failed write of the
    certificate; both written and then the CRL builder, called with
    forceNew = true.  So the handler never reads the storage, never lists or
    resolves issuers, never writes more than twice, and never calls the
    builder unless both writes succeeded. *)
Theorem pathCAWrite_traces (pemBundle : string) (s : Storage) :
  events_of (pathCAWrite b pemBundle s) = []
  \/ (exists encoded e,
        events_of (pathCAWrite b pemBundle s) =
          [EvPut "config/ca_bundle" encoded (Some e)])
  \/ (exists encoded cert e,
        events_of (pathCAWrite b pemBundle s) =
          [EvPut "config/ca_bundle" encoded None; EvPut "ca" cert (Some e)])
  \/ (exists encoded cert r,
        events_of (pathCAWrite b pemBundle s) =
          [EvPut "config/ca_bundle" encoded None; EvPut "ca" cert None;
           EvBuildCRL true r]).
Proof.
  destruct (pathCAWrite_run b pemBundle s) as [[r E]|(p & V & EP & R)].
  { left. rewrite E. reflexivity. }
  set (run := pathCAWrite b pemBundle s) in *. clearbody run.
  destruct R; unfold events_of; simpl; eauto 8.
Qed.

(** X4: when the write of the bundle fails, the storage error is the error
    of the operation, nothing else is called, and the store holds what it
    held. *)
Theorem pathCAWrite_bundle_put_fails
    (pemBundle : string) (s : Storage) (encoded : bytes) (e : error) :
  In (EvPut "config/ca_bundle" encoded (Some e))
     (events_of (pathCAWrite b pemBundle s)) ->
  reply_of (pathCAWrite b pemBundle s) = {| resp := None; err := Some e |} /\
  events_of (pathCAWrite b pemBundle s) =
    [EvPut "config/ca_bundle" encoded (Some e)] /\
  kv (final_of (pathCAWrite b pemBundle s)) = kv s.
Proof.
  intros H.
  destruct (pathCAWrite_run b pemBundle s) as [[r E]|(p & V & EP & R)].
  { rewrite E in H. contradiction. }
  set (run := pathCAWrite b pemBundle s) in *. clearbody run.
  destruct R; unfold events_of, reply_of, final_of in *; simpl in *.
  - contradiction.
  - contradiction.
  - destruct H as [H|[]]. injection H as <- <-. auto.
  - destruct H as [H|[H|[]]]; discriminate.
  - destruct H as [H|[H|[H|[]]]]; discriminate.
Qed.

(** X5: when the write of the certificate fails, the bundle of this write
    is already stored and stays: the store is the initial one with
    config/ca_bundle replaced, the entry under ca is the one from before,
    the CRL builder is not called, and the storage error is the error of the
    operation. *)
Theorem pathCAWrite_ca_put_fails
    (pemBundle : string) (s : Storage) (cert : bytes) (e : error) :
  In (EvPut "ca" cert (Some e)) (events_of (pathCAWrite b pemBundle s)) ->
  exists p cb encoded,
    ParsePEMBundle b pemBundle = Ok p /\
    ToCertBundle b p = Ok cb /\
    EncodeJSON b cb = Ok encoded /\
    cert = CertificateBytes p /\
    reply_of (pathCAWrite b pemBundle s) = {| resp := None; err := Some e |} /\
    events_of (pathCAWrite b pemBundle s) =
      [EvPut "config/ca_bundle" encoded None; EvPut "ca" cert (Some e)] /\
    kv (final_of (pathCAWrite b pemBundle s)) =
      <[ "config/ca_bundle" := encoded ]> (kv s) /\
    kv (final_of (pathCAWrite b pemBundle s)) !! "ca" = kv s !! "ca" /\
    crl_calls (events_of (pathCAWrite b pemBundle s)) = 0.
Proof.
  intros H.
  destruct (pathCAWrite_run b pemBundle s) as [[r E]|(p & V & EP & R)].
  { rewrite E in H. contradiction. }
  set (run := pathCAWrite b pemBundle s) in *. clearbody run.
  destruct R as [e' C|cb e' C J|cb enc e' C J|cb enc e' C J|cb enc s' e' C J B];
    unfold events_of, reply_of, final_of in *; simpl in *.
  - contradiction.
  - contradiction.
  - destruct H as [H|[]]; discriminate.
  - destruct H as [H|[H|[]]]; [discriminate|].
    injection H as <- <-.
    exists p, cb, enc. repeat split; auto.
    apply lookup_insert_ne. discriminate.
  - destruct H as [H|[H|[H|[]]]]; discriminate.
Qed.

(** X6: apart from the test for the empty text, a CA write depends on the
    PEM text through the parsed bundle only: two non-empty texts with the
    same parse result run alike, reply, storage and calls. *)
Theorem pathCAWrite_depends_on_parse (pem1 pem2 : string) (s : Storage) :
  pem1 <> "" ->
  pem2 <> "" ->
  ParsePEMBundle b pem1 = ParsePEMBundle b pem2 ->
  pathCAWrite b pem1 s = pathCAWrite b pem2 s.
Proof.
  intros N1 N2 H. unfold pathCAWrite.
  destruct (decide (pem1 = "")) as [E|_]; [contradiction|].
  destruct (decide (pem2 = "")) as [E|_]; [contradiction|].
  rewrite H. reflexivity.
Qed.

(** X7: a completed CA write replaces the two entries whole.  Take two
    stores that agree on every key other than config/ca_bundle and ca, on
    each of which the next two storage operations work, and whose schedules
    of storage outcomes after these two operations are the same.  A bundle
    that passes the checks, converts and encodes gives the same run on
    both, reply, final storage and calls: what the two entries held before
    leaves no trace. *)
Theorem pathCAWrite_replaces_wholesale
    (pemBundle : string) (s1 s2 : Storage) (p : ParsedCertBundle)
    (cb : CertBundle b) (encoded : bytes) :
  valid_bundle b pemBundle ->
  ParsePEMBundle b pemBundle = Ok p ->
  ToCertBundle b p = Ok cb ->
  EncodeJSON b cb = Ok encoded ->
  next_two_ops_ok s1 = true ->
  next_two_ops_ok s2 = true ->
  tail (tail (faults s1)) = tail (tail (faults s2)) ->
  (forall k, k <> "config/ca_bundle" -> k <> "ca" -> kv s1 !! k = kv s2 !! k) ->
  pathCAWrite b pemBundle s1 = pathCAWrite b pemBundle s2.
Proof.
  intros V EP C J F1 F2 EF A.
  rewrite !(pathCAWrite_valid b _ _ V EP).
  rewrite (storeAndRebuild_ok b p s1 cb encoded C J F1).
  rewrite (storeAndRebuild_ok b p s2 cb encoded C J F2).
  assert (E : afterPuts s1 encoded (CertificateBytes p)
              = afterPuts s2 encoded (CertificateBytes p)).
  { unfold afterPuts. rewrite EF. f_equal.
    apply map_eq. intros k.
    destruct (decide (k = "ca")) as [->|N2].
    { rewrite !lookup_insert_eq. reflexivity. }
    rewrite !(lookup_insert_ne _ "ca") by congruence.
    destruct (decide (k = "config/ca_bundle")) as [->|N1].
    { rewrite !lookup_insert_eq. reflexivity. }
    rewrite !lookup_insert_ne by congruence.
    apply A; assumption. }
  rewrite E. reflexivity.
Qed.

End CAWriteRuns.

(** ** The runs of the issuer-config handlers *)

Section IssuerRuns.

Variable b : backend.

Lemma default_inj (a c : string) :
  {| Data := {[ "default" := a ]} |} = {| Data := {[ "default" := c ]} |} ->
  a = c.
Proof.
  intros H.
  assert (L : ({[ "default" := a ]} : gmap string string) !! "default"
              = ({[ "default" := c ]} : gmap string string) !! "default")
    by (apply (f_equal Data) in H; simpl in H; rewrite H; reflexivity).
  rewrite !lookup_singleton_eq in L. congruence.
Qed.

(** The three replies of a write that went past the guard. *)
Lemma pathCAIssuersWrite_past_guard (newDefault : string) (s : Storage) :
  newDefault <> "" ->
  newDefault <> "default" ->
  (exists e s1 t1,
     resolveIssuerReference b newDefault s = (Err e, s1, t1) /\
     pathCAIssuersWrite b newDefault s =
       (respond (ErrorResponse ("Error resolving issuer reference: " ++ Error e)),
        s1, t1))
  \/ (exists id s1 t1 e s2 t2,
        resolveIssuerReference b newDefault s = (Ok id, s1, t1) /\
        updateDefaultIssuerId b id s1 = (Some e, s2, t2) /\
        pathCAIssuersWrite b newDefault s =
          (respond (ErrorResponse
             ("Error updating issuer configuration: " ++ Error e)),
           s2, t1 ++ t2))
  \/ (exists id s1 t1 s2 t2,
        resolveIssuerReference b newDefault s = (Ok id, s1, t1) /\
        updateDefaultIssuerId b id s1 = (None, s2, t2) /\
        pathCAIssuersWrite b newDefault s =
          (respond {| Data := {[ "default" := id ]} |}, s2, t1 ++ t2)).
Proof.
  intros N1 N2.
  destruct (resolveIssuerReference b newDefault s) as [[[id|e] s1] t1] eqn:R.
  - destruct (updateDefaultIssuerId b id s1) as [[[e|] s2] t2] eqn:U.
    + right; left. exists id, s1, t1, e, s2, t2.
      split; [reflexivity|]. split; [exact U|].
      apply (pathCAIssuersWrite_resolved b _ _ _ _ _ _ _ _ N1 N2 R U).
    + right; right. exists id, s1, t1, s2, t2.
      split; [reflexivity|]. split; [exact U|].
      apply (pathCAIssuersWrite_resolved b _ _ _ _ _ _ _ _ N1 N2 R U).
  - left. exists e, s1, t1. split; [reflexivity|].
    apply (pathCAIssuersWrite_resolve_failed b _ _ _ _ _ N1 N2 R).
Qed.

(** X8: the issuer-config write answers with the rejection of the reserved
    values exactly when the value is the empty string or the literal
    default; no other value, and no failure further on, gives that reply. *)
Theorem pathCAIssuersWrite_rejection_iff (newDefault : string) (s : Storage) :
  reply_of (pathCAIssuersWrite b newDefault s) =
    respond (ErrorResponse
      "Invalid issuer specification; must be non-empty and can't be 'default'.")
  <-> newDefault = "" \/ newDefault = "default".
Proof.
  split.
  - intros H.
    destruct (decide (newDefault = "")) as [E|N1]; [left; exact E|].
    destruct (decide (newDefault = "default")) as [E|N2]; [right; exact E|].
    exfalso.
    destruct (pathCAIssuersWrite_past_guard newDefault s N1 N2)
      as [(e & s1 & t1 & _ & W)
         |[(id & s1 & t1 & e & s2 & t2 & _ & _ & W)
          |(id & s1 & t1 & s2 & t2 & _ & _ & W)]];
      rewrite W in H; unfold reply_of in H; simpl in H;
      apply respond_inj in H.
    + apply ErrorResponse_inj in H. discriminate.
    + apply ErrorResponse_inj in H. discriminate.
    + exact (default_is_not_error _ _ H).
  - intros [-> | ->]; reflexivity.
Qed.

(** X9: when the resolution of the issuer reference fails, the write
    answers with the resolution's message after the handler's prefix and
    stops there: the update is not attempted, the storage and the calls are
    those of the resolution. *)
Theorem pathCAIssuersWrite_unresolved
    (newDefault : string) (s s1 : Storage) (t1 : list Event) (e : error) :
  newDefault <> "" ->
  newDefault <> "default" ->
  resolveIssuerReference b newDefault s = (Err e, s1, t1) ->
  pathCAIssuersWrite b newDefault s =
    ({| resp := Some (ErrorResponse
          ("Error resolving issuer reference: " ++ Error e));
        err := None |},
     s1, t1).
Proof.
  intros N1 N2 R.
  destruct (pathCAIssuersWrite_past_guard newDefault s N1 N2)
    as [(e' & s1' & t1' & R' & W)
       |[(id & s1' & t1' & e' & s2 & t2 & R' & _)
        |(id & s1' & t1' & s2 & t2 & R' & _)]];
    rewrite R in R'; try discriminate.
  injection R' as <- <- <-. exact W.
Qed.

(** X10: the issuer-config write confirms an identifier only after having
    stored it: a reply { default: id } means that the value went past the
    guard, that the resolution gave id, and that the update of the default
    to id returned no error; the storage and the calls of the run are those
    of the resolution followed by the update. *)
Theorem pathCAIssuersWrite_confirms_after_update
    (newDefault : string) (s : Storage) (id : issuerId) :
  resp (reply_of (pathCAIssuersWrite b newDefault s)) =
    Some {| Data := {[ "default" := id ]} |} ->
  newDefault <> "" /\ newDefault <> "default" /\
  exists s1 t1 s2 t2,
    resolveIssuerReference b newDefault s = (Ok id, s1, t1) /\
    updateDefaultIssuerId b id s1 = (None, s2, t2) /\
    final_of (pathCAIssuersWrite b newDefault s) = s2 /\
    events_of (pathCAIssuersWrite b newDefault s) = t1 ++ t2.
Proof.
  intros H.
  assert (G : forall v, v = "" \/ v = "default" ->
              reply_of (pathCAIssuersWrite b v s) =
                respond (ErrorResponse
                  "Invalid issuer specification; must be non-empty and can't be 'default'."))
    by (intros v [-> | ->]; reflexivity).
  destruct (decide (newDefault = "")) as [E|N1].
  { exfalso. rewrite (G _ (or_introl E)) in H.
    unfold respond in H; cbn [resp] in H.
    apply Some_inj in H. symmetry in H.
    exact (default_is_not_error _ _ H). }
  destruct (decide (newDefault = "default")) as [E|N2].
  { exfalso. rewrite (G _ (or_intror E)) in H.
    unfold respond in H; cbn [resp] in H.
    apply Some_inj in H. symmetry in H.
    exact (default_is_not_error _ _ H). }
  split; [exact N1|]. split; [exact N2|].
  destruct (pathCAIssuersWrite_past_guard newDefault s N1 N2)
    as [(e & s1 & t1 & _ & W)
       |[(id' & s1 & t1 & e & s2 & t2 & _ & _ & W)
        |(id' & s1 & t1 & s2 & t2 & R & U & W)]];
    rewrite W in *; unfold reply_of, final_of, events_of, respond in *;
    cbn [fst snd resp] in *; apply Some_inj in H.
  - exfalso. symmetry in H. exact (default_is_not_error _ _ H).
  - exfalso. symmetry in H. exact (default_is_not_error _ _ H).
  - apply default_inj in H. subst id'.
    exists s1, t1, s2, t2. auto.
Qed.

(** X11: the issuer-config handlers always answer with a response and never
    with an error of the operation, whatever the storage does: the read
    answers { default: ... } or an error response, the write one of its four
    replies. *)
Theorem issuer_handlers_always_respond (newDefault : string) (s : Storage) :
  (exists r, reply_of (pathCAIssuersRead b s) = {| resp := Some r; err := None |})
  /\ (exists r, reply_of (pathCAIssuersWrite b newDefault s)
                = {| resp := Some r; err := None |}).
Proof.
  split.
  - destruct (getIssuersConfig b s) as [[r s1] t1] eqn:G.
    rewrite (pathCAIssuersRead_loaded b _ _ _ _ G).
    destruct r; unfold reply_of; simpl; eauto.
  - destruct (decide (newDefault = "")) as [->|N1].
    { eexists; reflexivity. }
    destruct (decide (newDefault = "default")) as [->|N2].
    { eexists; reflexivity. }
    destruct (pathCAIssuersWrite_past_guard newDefault s N1 N2)
      as [(e & s1 & t1 & _ & W)
         |[(id' & s1 & t1 & e & s2 & t2 & _ & _ & W)
          |(id' & s1 & t1 & s2 & t2 & _ & _ & W)]];
      rewrite W; unfold reply_of; simpl; eauto.
Qed.

End IssuerRuns.

(** ** The errors of [pathCAWrite] *)

Section CAWriteErrors.

Variable b : backend.

(** X12: an error of the operation returned by a CA write is never a
    rejection of the input; it has one of five origins.  It is the parser's
    error, of the internal kind, or the conversion's error wrapped with the
    handler's message, or the error of the JSON encoding, and then nothing
    was touched; or it is the error of a storage write the run made; or it
    is the error the CRL builder returned. *)
Theorem pathCAWrite_error_origin (pemBundle : string) (s : Storage) (e : error) :
  err (reply_of (pathCAWrite b pemBundle s)) = Some e ->
  (pemBundle <> "" /\ ParsePEMBundle b pemBundle = Err e /\
   isInternalError e = true /\
   pathCAWrite b pemBundle s = (fail e, s, []))
  \/ (exists p e0,
        valid_bundle b pemBundle /\ ParsePEMBundle b pemBundle = Ok p /\
        ToCertBundle b p = Err e0 /\
        e = Errorf_w "error converting raw values into cert bundle: " e0 /\
        pathCAWrite b pemBundle s = (fail e, s, []))
  \/ (exists p cb,
        valid_bundle b pemBundle /\ ParsePEMBundle b pemBundle = Ok p /\
        ToCertBundle b p = Ok cb /\ EncodeJSON b cb = Err e /\
        pathCAWrite b pemBundle s = (fail e, s, []))
  \/ (exists k v, In (EvPut k v (Some e)) (events_of (pathCAWrite b pemBundle s)))
  \/ In (EvBuildCRL true (Some e)) (events_of (pathCAWrite b pemBundle s)).
Proof.
  destruct (first_failure (validation_steps b pemBundle)) as [f|] eqn:F.
  - pose proof (pathCAWrite_invalid_pure b _ s _ F) as W.
    rewrite W. unfold reply_of; simpl.
    destruct f as [msg|e']; simpl; intros H; [discriminate|].
    injection H as ->. left.
    revert F W. unfold validation_steps, onParsed; simpl.
    destruct (decide (pemBundle = "")) as [E|N]; [discriminate|].
    destruct (ParsePEMBundle b pemBundle) as [p|e'] eqn:EP.
    + destruct (PrivateKey p); [|discriminate].
      destruct (PrivateKeyType p); try discriminate;
        (destruct (Certificate p) as [c|]; [|discriminate];
         destruct (IsCA c); discriminate).
    + destruct (isInternalError e') eqn:I; [|discriminate].
      intros H W. injection H as <-. auto.
  - destruct (valid_bundle_inv b _ F) as (_ & p & _ & _ & EP & _).
    rewrite (pathCAWrite_valid b _ _ F EP).
    pose proof (storeAndRebuild_run b p s) as R.
    set (run := storeAndRebuild b p s) in *. clearbody run.
    destruct R as [e' C|cb e' C J|cb enc e' C J|cb enc e' C J|cb enc s' e' C J B];
      unfold reply_of, events_of; simpl; intros H;
      first [injection H as <- | subst e'].
    + right; left. exists p, e'. auto.
    + right; right; left. exists p, cb. auto.
    + right; right; right; left.
      exists "config/ca_bundle", enc. left; reflexivity.
    + right; right; right; left.
      exists "ca", (CertificateBytes p). right; left; reflexivity.
    + right; right; right; right. right; right; left; reflexivity.
Qed.

End CAWriteErrors.

(** ** The further properties on the in-memory backend *)

(** A certificate that is not a CA: the reply is the rejection and nothing
    is touched. *)
Lemma pathCAWrite_response_is_rejection_witness :
  resp (reply_of (pathCAWrite Fixture.pki "KEY+LEAF-CERT" Fixture.empty)) =
    Some (ErrorResponse
      "the given certificate is not marked for CA use and cannot be used with this backend")
  /\ final_of (pathCAWrite Fixture.pki "KEY+LEAF-CERT" Fixture.empty) = Fixture.empty
  /\ events_of (pathCAWrite Fixture.pki "KEY+LEAF-CERT" Fixture.empty) = [].
Proof.
  split; [reflexivity|].
  apply (pathCAWrite_response_is_rejection Fixture.pki "KEY+LEAF-CERT"
           Fixture.empty
           (ErrorResponse
              "the given certificate is not marked for CA use and cannot be used with this backend")).
  reflexivity.
Defined.

Lemma pathCAWrite_silent_means_stored_witness :
  reply_of (pathCAWrite Fixture.pki "KEY+CA-CERT" Fixture.empty)
    = {| resp := None; err := None |} /\
  exists p cb encoded,
    ParsePEMBundle Fixture.pki "KEY+CA-CERT" = Ok p /\
    ToCertBundle Fixture.pki p = Ok cb /\
    EncodeJSON Fixture.pki cb = Ok encoded /\
    events_of (pathCAWrite Fixture.pki "KEY+CA-CERT" Fixture.empty) =
      [EvPut "config/ca_bundle" encoded None;
       EvPut "ca" (CertificateBytes p) None;
       EvBuildCRL true None] /\
    buildCRL Fixture.pki true (afterPuts Fixture.empty encoded (CertificateBytes p)) =
      (final_of (pathCAWrite Fixture.pki "KEY+CA-CERT" Fixture.empty), None).
Proof.
  split; [reflexivity|].
  apply (pathCAWrite_silent_means_stored Fixture.pki "KEY+CA-CERT" Fixture.empty).
  reflexivity.
Defined.

Lemma pathCAWrite_bundle_put_fails_witness :
  reply_of (pathCAWrite Fixture.pki "KEY+CA-CERT"
              (Fixture.faulty [Some Fixture.storageDown]))
    = {| resp := None; err := Some Fixture.storageDown |} /\
  events_of (pathCAWrite Fixture.pki "KEY+CA-CERT"
               (Fixture.faulty [Some Fixture.storageDown])) =
    [EvPut "config/ca_bundle" Fixture.certBytes (Some Fixture.storageDown)] /\
  kv (final_of (pathCAWrite Fixture.pki "KEY+CA-CERT"
                  (Fixture.faulty [Some Fixture.storageDown])))
    = kv (Fixture.faulty [Some Fixture.storageDown]).
Proof.
  apply (pathCAWrite_bundle_put_fails Fixture.pki "KEY+CA-CERT"
           (Fixture.faulty [Some Fixture.storageDown])
           Fixture.certBytes Fixture.storageDown).
  vm_compute. left. reflexivity.
Defined.

(** The certificate write fails over a store that holds an older
    certificate: the older certificate stays under ca. *)
Lemma pathCAWrite_ca_put_fails_witness :
  kv (final_of (pathCAWrite Fixture.pki "KEY+CA-CERT"
        {| kv := {[ "ca" := Fixture.keyBytes ]};
           faults := [None; Some Fixture.storageDown] |})) !! "ca"
    = Some Fixture.keyBytes.
Proof.
  destruct (pathCAWrite_ca_put_fails Fixture.pki "KEY+CA-CERT"
              {| kv := {[ "ca" := Fixture.keyBytes ]};
                 faults := [None; Some Fixture.storageDown] |}
              Fixture.certBytes Fixture.storageDown)
    as (p & cb & enc & _ & _ & _ & _ & _ & _ & _ & L & _).
  - vm_compute. right. left. reflexivity.
  - rewrite L. reflexivity.
Defined.

Lemma pathCAWrite_depends_on_parse_witness :
  ParsePEMBundle Fixture.pki "hello" = ParsePEMBundle Fixture.pki "world" /\
  pathCAWrite Fixture.pki "hello" Fixture.empty
    = pathCAWrite Fixture.pki "world" Fixture.empty.
Proof.
  split; [reflexivity|].
  apply (pathCAWrite_depends_on_parse Fixture.pki "hello" "world" Fixture.empty).
  - discriminate.
  - discriminate.
  - reflexivity.
Defined.

(** A first CA over an empty store and over a store with older entries,
    with a CRL builder that stores through the request's storage. *)
Lemma pathCAWrite_replaces_wholesale_witness :
  pathCAWrite Fixture.pkiStoring "KEY+CA-CERT" Fixture.empty =
  pathCAWrite Fixture.pkiStoring "KEY+CA-CERT"
    {| kv := <[ "ca" := Fixture.keyBytes ]>
               {[ "config/ca_bundle" := Fixture.crlBytes ]};
       faults := [None; None] |}.
Proof.
  apply (pathCAWrite_replaces_wholesale Fixture.pkiStoring "KEY+CA-CERT"
           Fixture.empty
           {| kv := <[ "ca" := Fixture.keyBytes ]>
                      {[ "config/ca_bundle" := Fixture.crlBytes ]};
              faults := [None; None] |}
           Fixture.caBundle Fixture.certBytes Fixture.certBytes).
  - reflexivity.
  - reflexivity.
  - reflexivity.
  - reflexivity.
  - reflexivity.
  - reflexivity.
  - reflexivity.
  - intros k N1 N2. simpl.
    rewrite lookup_insert_ne by congruence.
    rewrite lookup_singleton_ne by congruence.
    reflexivity.
Defined.

Lemma pathCAIssuersWrite_unresolved_witness :
  pathCAIssuersWrite Fixture.pki "beta" Fixture.empty =
    ({| resp := Some (ErrorResponse
          "Error resolving issuer reference: unable to find PKI issuer for reference: beta");
        err := None |},
     Fixture.empty, [EvResolve "beta"; EvListIssuers]).
Proof.
  apply (pathCAIssuersWrite_unresolved Fixture.pki "beta" Fixture.empty
           Fixture.empty [EvResolve "beta"; EvListIssuers]
           (NotFoundError "unable to find PKI issuer for reference: beta")).
  - discriminate.
  - discriminate.
  - reflexivity.
Defined.

Lemma pathCAIssuersWrite_confirms_after_update_witness :
  resp (reply_of (pathCAIssuersWrite Fixture.pki "alpha" Fixture.empty)) =
    Some {| Data := {[ "default" := "id-123" ]} |} /\
  exists s1 t1 s2 t2,
    resolveIssuerReference Fixture.pki "alpha" Fixture.empty = (Ok "id-123", s1, t1) /\
    updateDefaultIssuerId Fixture.pki "id-123" s1 = (None, s2, t2) /\
    final_of (pathCAIssuersWrite Fixture.pki "alpha" Fixture.empty) = s2 /\
    events_of (pathCAIssuersWrite Fixture.pki "alpha" Fixture.empty) = t1 ++ t2.
Proof.
  split; [reflexivity|].
  apply (pathCAIssuersWrite_confirms_after_update Fixture.pki "alpha"
           Fixture.empty "id-123").
  reflexivity.
Defined.

(** The CRL build fails: the error of the operation is the builder's. *)
Lemma pathCAWrite_error_origin_witness :
  err (reply_of (pathCAWrite Fixture.pkiCrlDown "KEY+CA-CERT" Fixture.empty)) =
    Some (errorString "crl build failed") /\
  In (EvBuildCRL true (Some (errorString "crl build failed")))
     (events_of (pathCAWrite Fixture.pkiCrlDown "KEY+CA-CERT" Fixture.empty)).
Proof.
  split; [reflexivity|].
  destruct (pathCAWrite_error_origin Fixture.pkiCrlDown "KEY+CA-CERT"
              Fixture.empty (errorString "crl build failed") eq_refl)
    as [(_ & H & _)|[(p & e0 & _ & _ & H & _)
       |[(p & cb & _ & _ & _ & H & _)|[(k & v & H)|H]]]].
  - discriminate H.
  - vm_compute. right. right. left. reflexivity.
  - vm_compute. right. right. left. reflexivity.
  - vm_compute. right. right. left. reflexivity.
  - exact H.
Defined.
